(** * convert.js: from a content export to Markdown pages

    A shallow embedding of [src/convert.js] and the properties its
    specification states about it.  The file has three parts: the program,
    the vocabulary of the specification, and the proofs.

    Modelling conventions.
    - A JavaScript string is a [string]; each [ascii] stands for one code unit
      below 256.  [toLowerCase] and [trim] are the built-ins restricted to
      these units.
    - A JSON object is a record whose fields are the properties the program
      reads.  A property that may be missing has an [option] type, [None]
      standing for [undefined].  A property that is there holds a value of the
      type the export format gives it.
    - JSON [null] is modelled where the source tests for it: as an element of
      a node array ([option Node.t] in a [content] list).
    - An exception is a value of type [error]; code that may throw returns a
      [result].  Evaluation order follows the source, so the first failing
      read decides which error is thrown.
    - The file system is a parameter: a type of states and the function
      [writeFileSync], which from a state, a path and a text gives the state
      the call leaves and the exception it throws, if any.  Nothing else is
      assumed of it.  The state of the file system, the writes that returned
      and the console entries are threaded through the page loop. *)

From Stdlib Require Import List String Ascii Bool Arith Lia DecimalString.
Import ListNotations.

#[local] Set Warnings "-register-all".
#[local] Open Scope string_scope.

(* ===================================================================== *)
(** * Part I: the program *)
(* ===================================================================== *)

(* ===================================================================== *)
(** ** Exceptions and the result monad *)
(* ===================================================================== *)

Inductive nullish : Type := JsUndefined | JsNull.

(** The exceptions of a run.  The program itself raises two kinds of
    [TypeError] on well-typed but partial data: reading a property of
    [undefined]/[null], and calling a property that is not a function.  A
    [SystemError] is what the file system throws, with its message. *)
Inductive error : Type :=
| TypeError_read (base : nullish) (prop : string)
| TypeError_call (callee : string)
| SystemError (msg : string).

Definition nullish_name (b : nullish) : string :=
  match b with JsUndefined => "undefined" | JsNull => "null" end.

(** [error.message], in the wording of the V8 engine. *)
Definition message (e : error) : string :=
  match e with
  | TypeError_read b p =>
      "Cannot read properties of " ++ nullish_name b ++ " (reading '" ++ p ++ "')"
  | TypeError_call f => f ++ " is not a function"
  | SystemError msg => msg
  end.

Inductive result (A : Type) : Type :=
| Ok (a : A)
| Throw (e : error).

Arguments Ok {A} a.
Arguments Throw {A} e.

Definition bind {A B : Type} (c : result A) (k : A -> result B) : result B :=
  match c with
  | Ok a => k a
  | Throw e => Throw e
  end.

Notation "x <- c ;; k" := (bind c (fun x => k))
  (at level 61, c at next level, right associativity).

Definition succeeds {A : Type} (c : result A) : bool :=
  match c with Ok _ => true | Throw _ => false end.

(* ===================================================================== *)
(** ** Values in string position *)
(* ===================================================================== *)

(** The line feed, ["\n"] in the source. *)
Definition nl : string := String (ascii_of_nat 10) EmptyString.

(** The double quote. *)
Definition dq : string := String (ascii_of_nat 34) EmptyString.

(** What an expression of the program can evaluate to where a string is
    expected: a string, or [undefined] when an optional property is missing. *)
Inductive jsval : Type :=
| JUndefined
| JString (s : string).

(** [ToString], as applied by template literals and by [+] with a string. *)
Definition toString (v : jsval) : string :=
  match v with
  | JUndefined => "undefined"
  | JString s => s
  end.

(** [ToBoolean]: [undefined] and the empty string are falsy. *)
Definition truthy (v : jsval) : bool :=
  match v with
  | JUndefined => false
  | JString "" => false
  | JString _ => true
  end.

Definition of_option (o : option string) : jsval :=
  match o with
  | None => JUndefined
  | Some s => JString s
  end.

(** [===] on two optional strings: [undefined === undefined] holds. *)
Definition strict_eq (a b : option string) : bool :=
  match a, b with
  | None, None => true
  | Some x, Some y => String.eqb x y
  | _, _ => false
  end.

(** [x === 'lit'] for a string literal. *)
Definition is_lit (a : option string) (lit : string) : bool :=
  strict_eq a (Some lit).

(* ===================================================================== *)
(** ** String and array built-ins *)
(* ===================================================================== *)

Module Str.

Definition in_range (lo hi : nat) (c : ascii) : bool :=
  ((lo <=? nat_of_ascii c) && (nat_of_ascii c <=? hi))%nat.

(** White space and line terminators among the code units below 256:
    TAB, LF, VT, FF, CR, SP and NBSP. *)
Definition isWhiteSpace (c : ascii) : bool :=
  in_range 9 13 c || (nat_of_ascii c =? 32)%nat || (nat_of_ascii c =? 160)%nat.

Fixpoint trimStart (s : string) : string :=
  match s with
  | EmptyString => EmptyString
  | String c r => if isWhiteSpace c then trimStart r else s
  end.

Fixpoint trimEnd (s : string) : string :=
  match s with
  | EmptyString => EmptyString
  | String c r =>
      match trimEnd r with
      | EmptyString => if isWhiteSpace c then EmptyString else String c EmptyString
      | r' => String c r'
      end
  end.

(** [String.prototype.trim]. *)
Definition trim (s : string) : string := trimEnd (trimStart s).

(** [String.prototype.startsWith]. *)
Definition startsWith (s p : string) : bool := String.prefix p s.

(** Upper-case letters below 256: A-Z, and U+00C0..U+00DE except U+00D7. *)
Definition isUpper (c : ascii) : bool :=
  in_range 65 90 c
  || (in_range 192 222 c && negb (nat_of_ascii c =? 215)%nat).

Definition lowerChar (c : ascii) : ascii :=
  if isUpper c then ascii_of_nat (nat_of_ascii c + 32) else c.

(** [String.prototype.toLowerCase]. *)
Fixpoint toLowerCase (s : string) : string :=
  match s with
  | EmptyString => EmptyString
  | String c r => String (lowerChar c) (toLowerCase r)
  end.

(** The class [[a-z0-9]] of the filename pattern. *)
Definition isAlnum (c : ascii) : bool :=
  in_range 97 122 c || in_range 48 57 c.

Definition isHyphen (c : ascii) : bool := (nat_of_ascii c =? 45)%nat.

(** [s.replace(/[^a-z0-9]+/g, '-')].  [replaceRuns] scans for the next
    match; [skipRun] is inside a match, which the greedy [+] extends as far
    as the class allows, and scanning resumes behind it. *)
Fixpoint replaceRuns (s : string) : string :=
  match s with
  | EmptyString => EmptyString
  | String c r =>
      if isAlnum c then String c (replaceRuns r) else String "-" (skipRun r)
  end
with skipRun (s : string) : string :=
  match s with
  | EmptyString => EmptyString
  | String c r =>
      if isAlnum c then String c (replaceRuns r) else skipRun r
  end.

(** The alternative [-$]: a hyphen that is the last unit is removed. *)
Fixpoint dropFinalHyphen (s : string) : string :=
  match s with
  | EmptyString => EmptyString
  | String c EmptyString => if isHyphen c then EmptyString else s
  | String c r => String c (dropFinalHyphen r)
  end.

(** [s.replace(/^-|-$/g, '')]: the alternative [^-] can match at index 0
    only and consumes that unit; [-$] can match at the last index only. *)
Definition stripEdgeHyphens (s : string) : string :=
  match s with
  | String c r => if isHyphen c then dropFinalHyphen r else dropFinalHyphen s
  | EmptyString => EmptyString
  end.

(** Decimal notation of an array index. *)
Definition ofNat (n : nat) : string :=
  NilEmpty.string_of_uint (Nat.to_uint n).

End Str.

Module Arr.

(** [Array.prototype.join] on strings. *)
Fixpoint joinStrings (sep : string) (l : list string) : string :=
  match l with
  | [] => ""
  | [x] => x
  | x :: r => x ++ sep ++ joinStrings sep r
  end.

(** An element that is [undefined] joins as the empty string. *)
Definition elemString (v : jsval) : string :=
  match v with
  | JUndefined => ""
  | JString s => s
  end.

(** [Array.prototype.join]. *)
Definition join (sep : string) (l : list jsval) : string :=
  joinStrings sep (map elemString l).

Section Callbacks.
Context {A B : Type}.

(** [Array.prototype.map] with a callback that may throw: elements are
    visited in index order and the first exception escapes. *)
Definition map (f : A -> result B) : list A -> result (list B) :=
  fix go (l : list A) : result (list B) :=
    match l with
    | [] => Ok []
    | x :: r =>
        y <- f x ;;
        ys <- go r ;;
        Ok (y :: ys)
    end.

(** The same with a callback that also receives the index. *)
Definition mapi (f : nat -> A -> result B) : nat -> list A -> result (list B) :=
  fix go (i : nat) (l : list A) : result (list B) :=
    match l with
    | [] => Ok []
    | x :: r =>
        y <- f i x ;;
        ys <- go (S i) r ;;
        Ok (y :: ys)
    end.

(** [Array.prototype.forEach] with a callback that updates the variables
    it closes over (the state [B]) and may throw. *)
Definition forEach (f : nat -> A -> B -> result B) : nat -> list A -> B -> result B :=
  fix go (i : nat) (l : list A) (st : B) : result B :=
    match l with
    | [] => Ok st
    | x :: r =>
        st' <- f i x st ;;
        go (S i) r st'
    end.
End Callbacks.

(** [Array.prototype.find]. *)
Fixpoint find {A : Type} (p : A -> bool) (l : list A) : option A :=
  match l with
  | [] => None
  | x :: r => if p x then Some x else find p r
  end.

(** [Array.prototype.find] with a predicate that may throw. *)
Fixpoint findM {A : Type} (p : A -> result bool) (l : list A) : result (option A) :=
  match l with
  | [] => Ok None
  | x :: r =>
      b <- p x ;;
      if b then Ok (Some x) else findM p r
  end.

End Arr.

(* ===================================================================== *)
(** ** The export snapshot *)
(* ===================================================================== *)

(** [{ id }]: the [sys] object of a link or of an asset. *)
Module Sys.
Record t : Type := mk { id : option string }.
End Sys.

(** A field of an entry or asset is keyed by locale; the program reads the
    ['en-US'] key only, which may be missing. *)
Module Localized.
Record t (A : Type) : Type := mk { en_US : option A }.
Arguments mk {A} en_US.
Arguments en_US {A} t.
End Localized.

Module Node.

Record mark : Type := mkMark { type : option string }.

(** [data.target] of an embedded asset: a link carrying [sys.id]. *)
Record link : Type := mkLink { sys : option Sys.t }.

(** [node.data]: [uri] for hyperlinks, [target] for embedded assets. *)
Record data_t : Type := mkData { uri : option string; target : option link }.

(** A rich-text node: the properties [processNode] reads.  An element of a
    [content] array is a node object or [null]. *)
Inductive t : Type := mk {
  nodeType : option string;
  content : option (list (option t));
  data : option data_t;
  value : option string;
  marks : option (list mark)
}.

End Node.

Module Asset.

Record file_t : Type := mkFile { url : option string }.

Record fields_t : Type := mkFields {
  file : option (Localized.t file_t);
  title : option (Localized.t string)
}.

Record t : Type := mk { sys : option Sys.t; fields : option fields_t }.

End Asset.

Module Entry.

(** A reference to another entry, as found in a page's [content] field. *)
Record ref : Type := mkRef { ref_sys : option Sys.t }.

(** The ['en-US'] value of a [content] field: an array of references on a
    page, a rich-text document on a content block. *)
Inductive content_t : Type :=
| Refs (refs : list ref)
| RichText (doc : Node.t).

Record fields_t : Type := mkFields {
  title : option (Localized.t string);
  description : option (Localized.t string);
  content : option (Localized.t content_t)
}.

(** [sys.id] and [sys.contentType.sys.id] of an entry.  The filter that
    selects the pages reads [e.sys.contentType.sys.id] of every entry
    outside any handler, so the conversion only starts on snapshots where
    each entry has these objects; the two identifiers may still be missing. *)
Record t : Type := mk {
  id : option string;
  contentType : option string;
  fields : option fields_t
}.

End Entry.

Record snapshot : Type := mkSnapshot {
  entries : list Entry.t;
  assets : list Asset.t
}.

(* ===================================================================== *)
(** ** The converter *)
(* ===================================================================== *)

(** [o.p] where [o] may be [undefined]: the read throws, or binds the object
    so that its property can be taken. *)
Notation "'read' x := o 'for' p ;; k" :=
  (match o with
   | Some x => k
   | None => Throw (TypeError_read JsUndefined p)
   end)
  (at level 61, x name, o at next level, p at next level, right associativity).

(** The same for an array element, which may be [null]. *)
Notation "'elem' x := o 'for' p ;; k" :=
  (match o with
   | Some x => k
   | None => Throw (TypeError_read JsNull p)
   end)
  (at level 61, x name, o at next level, p at next level, right associativity).

Section Converter.

(** [const data = JSON.parse(...)]. *)
Variable data : snapshot.

(** [findEntry(id)].  Every entry has a [sys] object, so the predicate
    cannot throw. *)
Definition findEntry (id : option string) : option Entry.t :=
  Arr.find (fun e => strict_eq (Entry.id e) id) (entries data).

(** [findAsset(id)].  The predicate reads [a.sys.id]. *)
Definition findAsset (id : option string) : result (option Asset.t) :=
  Arr.findM
    (fun a => read s := Asset.sys a for "id" ;; Ok (strict_eq (Sys.id s) id))
    (assets data).

(** [f ? f['en-US'] : dflt], the way [title] and [description] are read:
    the test is on the field object, not on its value. *)
Definition fieldOr (f : option (Localized.t string)) (dflt : string) : jsval :=
  match f with
  | Some l => of_option (Localized.en_US l)
  | None => JString dflt
  end.

(** The [embedded-asset-block] case of [processNode]. *)
Definition processAsset (node : Node.t) : result jsval :=
  read d := Node.data node for "target" ;;
  read l := Node.target d for "sys" ;;
  read s := Node.sys l for "id" ;;
  found <- findAsset (Sys.id s) ;;
  match found with
  | None => Ok (JString "")
  | Some asset =>
      read fs := Asset.fields asset for "file" ;;
      match Asset.file fs with
      | None => Ok (JString "")
      | Some f =>
          read fd := Localized.en_US f for "url" ;;
          let title := fieldOr (Asset.title fs) "" in
          read url := Asset.url fd for "startsWith" ;;
          Ok (JString
                (nl ++ nl ++ "![" ++ toString title ++ "]("
                 ++ (if Str.startsWith url "//" then "https:" ++ url else url)
                 ++ ")" ++ nl ++ nl))
      end
  end.

(** One iteration of [node.marks.forEach]: two consecutive tests. *)
Definition applyMark (mark : Node.mark) (text : jsval) : jsval :=
  let text :=
    if is_lit (Node.type mark) "bold"
    then JString ("**" ++ toString text ++ "**") else text in
  let text :=
    if is_lit (Node.type mark) "code"
    then JString ("`" ++ toString text ++ "`") else text in
  text.

(** The [text] case of [processNode]. *)
Definition processText (node : Node.t) : jsval :=
  let text := of_option (Node.value node) in
  match Node.marks node with
  | Some marks => fold_left (fun text mark => applyMark mark text) marks text
  | None => text
  end.

Section Table.

(** [processNode], as seen from [processTable]. *)
Variable processNode : option Node.t -> result jsval.

(** [cell.content.map(processNode).join('').trim()]. *)
Definition processCell (cell : option Node.t) : result string :=
  elem c := cell for "content" ;;
  read kids := Node.content c for "map" ;;
  parts <- Arr.map processNode kids ;;
  Ok (Str.trim (Arr.join "" parts)).

(** The body of [rows.forEach]; the state is the local [markdown]. *)
Definition processRow (rowIndex : nat) (row : option Node.t) (markdown : string)
  : result string :=
  elem r := row for "content" ;;
  read cs := Node.content r for "map" ;;
  cells <- Arr.map processCell cs ;;
  let markdown := markdown ++ "| " ++ Arr.joinStrings " | " cells ++ " |" ++ nl in
  let markdown :=
    if Nat.eqb rowIndex 0
    then markdown ++ "| " ++ Arr.joinStrings " | " (map (fun _ => "---") cells)
                  ++ " |" ++ nl
    else markdown in
  Ok markdown.

Definition processTable_with (tableNode : Node.t) : result string :=
  read rows := Node.content tableNode for "forEach" ;;
  Arr.forEach processRow 0 rows "".

End Table.

(** [node.content.map(f)] when [node.content] may be missing. *)
Definition mapContent {B : Type} (f : nat -> option Node.t -> result B) (node : Node.t)
  : result (list B) :=
  read kids := Node.content node for "map" ;;
  Arr.mapi f 0 kids.

(** The [switch] of [processNode], on a node that is not [null]. *)
Fixpoint processObject (node : Node.t) : result jsval :=
  let processNode (n : option Node.t) : result jsval :=
    match n with
    | None => Ok (JString "")
    | Some n => processObject n
    end in
  let children := mapContent (fun _ n => processNode n) node in
  let ty := Node.nodeType node in
  if is_lit ty "document" then
    parts <- children ;; Ok (JString (Arr.join (nl ++ nl) parts))
  else if is_lit ty "paragraph" then
    parts <- children ;; Ok (JString (Arr.join "" parts))
  else if is_lit ty "heading-2" then
    parts <- children ;; Ok (JString ("## " ++ Arr.join "" parts))
  else if is_lit ty "heading-3" then
    parts <- children ;; Ok (JString ("### " ++ Arr.join "" parts))
  else if is_lit ty "unordered-list" then
    items <- mapContent
               (fun _ item => v <- processNode item ;; Ok ("- " ++ toString v)) node ;;
    Ok (JString (Arr.joinStrings nl items))
  else if is_lit ty "ordered-list" then
    items <- mapContent
               (fun i item =>
                  v <- processNode item ;; Ok (Str.ofNat (i + 1) ++ ". " ++ toString v))
               node ;;
    Ok (JString (Arr.joinStrings nl items))
  else if is_lit ty "list-item" then
    parts <- children ;; Ok (JString (Arr.join "" parts))
  else if is_lit ty "hyperlink" then
    parts <- children ;;
    let linkText := Arr.join "" parts in
    read d := Node.data node for "uri" ;;
    Ok (JString ("[" ++ linkText ++ "](" ++ toString (of_option (Node.uri d)) ++ ")"))
  else if is_lit ty "embedded-asset-block" then
    processAsset node
  else if is_lit ty "text" then
    Ok (processText node)
  else if is_lit ty "table" then
    t <- processTable_with processNode node ;;
    Ok (JString (nl ++ nl ++ t ++ nl ++ nl))
  else
    match Node.content node with
    | Some kids =>
        parts <- Arr.map processNode kids ;; Ok (JString (Arr.join "" parts))
    | None => Ok (JString "")
    end.

(** [processNode(node)]. *)
Definition processNode (node : option Node.t) : result jsval :=
  match node with
  | None => Ok (JString "")
  | Some n => processObject n
  end.

(** [processTable(tableNode)]. *)
Definition processTable (tableNode : Node.t) : result string :=
  processTable_with processNode tableNode.

(** [richTextToMarkdown(content)].  An array has no [content] property, so
    the guard returns [''] for an array of references. *)
Definition richTextToMarkdown (content : Entry.content_t) : result jsval :=
  match content with
  | Entry.Refs _ => Ok (JString "")
  | Entry.RichText doc =>
      match Node.content doc with
      | None => Ok (JString "")
      | Some _ => processNode (Some doc)
      end
  end.

(** [f && f['en-US']] for a string field, as a value in a condition. *)
Definition fieldAnd (f : option (Localized.t string)) : jsval :=
  match f with
  | Some l => of_option (Localized.en_US l)
  | None => JUndefined
  end.

(** The body of [contentRefs.forEach]; the state is the page's [markdown]. *)
Definition processRef (ref : Entry.ref) (markdown : string) : result string :=
  read s := Entry.ref_sys ref for "id" ;;
  match findEntry (Sys.id s) with
  | None => Ok markdown
  | Some block =>
      match Entry.fields block with
      | None => Ok markdown
      | Some blockFields =>
          let heading := fieldAnd (Entry.title blockFields) in
          let markdown :=
            if truthy heading
            then markdown ++ "### " ++ toString heading ++ nl ++ nl
            else markdown in
          match Entry.content blockFields with
          | None => Ok markdown
          | Some c =>
              match Localized.en_US c with
              | None => Ok markdown
              | Some rich =>
                  body <- richTextToMarkdown rich ;;
                  Ok (markdown ++ toString body ++ nl ++ nl)
              end
          end
      end
  end.

(** The front matter, the heading and the description paragraph: lines
    121 to 131. *)
Definition pageHeader (title description : jsval) : string :=
  let markdown := "---" ++ nl ++ "title: " ++ dq ++ toString title ++ dq ++ nl in
  let markdown :=
    if truthy description
    then markdown ++ "description: " ++ dq ++ toString description ++ dq ++ nl
    else markdown in
  let markdown := markdown ++ "---" ++ nl ++ nl in
  let markdown := markdown ++ "# " ++ toString title ++ nl ++ nl in
  let markdown :=
    if truthy description
    then markdown ++ toString description ++ nl ++ nl
    else markdown in
  markdown.

(** The content blocks: lines 134 to 151. *)
Definition pageBlocks (fields : Entry.fields_t) (markdown : string) : result string :=
  match Entry.content fields with
  | None => Ok markdown
  | Some c =>
      match Localized.en_US c with
      | None => Ok markdown
      | Some (Entry.Refs contentRefs) =>
          Arr.forEach (fun _ => processRef) 0 contentRefs markdown
      | Some (Entry.RichText _) => Throw (TypeError_call "contentRefs.forEach")
      end
  end.

(** Lines 154 to 156. *)
Definition makeFilename (title : jsval) : result string :=
  match title with
  | JUndefined => Throw (TypeError_read JsUndefined "toLowerCase")
  | JString t =>
      Ok (Str.stripEdgeHyphens (Str.replaceRuns (Str.toLowerCase t)) ++ ".mdx")
  end.

Record document : Type := mkDocument {
  doc_title : jsval;
  filename : string;
  markdown : string
}.

(** The [try] block of the page loop up to the point where the file is
    written: what the specification calls page assembly. *)
Definition assemblePage (page : Entry.t) : result document :=
  read fields := Entry.fields page for "title" ;;
  let title := fieldOr (Entry.title fields) "Untitled" in
  let description := fieldOr (Entry.description fields) "" in
  markdown <- pageBlocks fields (pageHeader title description) ;;
  filename <- makeFilename title ;;
  Ok (mkDocument title filename markdown).

(** An entry of the console: the arguments of one call of [console.log]
    or [console.error]. *)
Inductive line : Type :=
| Found (count : nat)
| Converted (title : jsval) (filename : string)
| ErrorConverting (index : nat) (msg : string)
| Done (count : nat).

Definition outputDir : string := "./markdown-output".

(** [path.join(outputDir, filename)]: the two segments joined by a slash
    and normalised, which drops the leading [./] of [outputDir].  A file
    name made by [makeFilename] has no slash and no dot segment. *)
Definition filepath (filename : string) : string :=
  String.substring 2 (String.length outputDir - 2) outputDir ++ "/" ++ filename.

(** The file system: its states, and [fs.writeFileSync(path, text)], which
    leaves a state and may throw. *)
Variable FS : Type.
Variable writeFileSync : FS -> string -> string -> FS * option error.

(** What the run leaves behind: the state of the file system, the writes
    that returned, in the order of the calls, and the console entries. *)
Record world : Type := mkWorld {
  disk : FS;
  written : list (string * string);
  console : list line
}.

(** The callback of [pages.forEach]: the [try] block, which ends with the
    write and the success entry, and its handler. *)
Definition convertPage (index : nat) (page : Entry.t) (w : world) : world :=
  match assemblePage page with
  | Ok d =>
      match writeFileSync (disk w) (filepath (filename d)) (markdown d) with
      | (disk', None) =>
          mkWorld disk'
                  (written w ++ [(filepath (filename d), markdown d)])%list
                  (console w ++ [Converted (doc_title d) (filename d)])%list
      | (disk', Some e) =>
          mkWorld disk' (written w)
                  (console w ++ [ErrorConverting index (message e)])%list
      end
  | Throw e =>
      mkWorld (disk w) (written w)
              (console w ++ [ErrorConverting index (message e)])%list
  end.

(** [pages.forEach] from a given index. *)
Fixpoint convertPages (index : nat) (pages : list Entry.t) (w : world) : world :=
  match pages with
  | [] => w
  | page :: rest => convertPages (S index) rest (convertPage index page w)
  end.

(** [data.entries.filter(e => e.sys.contentType.sys.id === 'page')]. *)
Definition pages : list Entry.t :=
  filter (fun e => is_lit (Entry.contentType e) "page") (entries data).

(** The script from line 111 on, started on a given file system. *)
Definition main (disk0 : FS) : world :=
  let w := mkWorld disk0 [] [Found (List.length pages)] in
  let w := convertPages 0 pages w in
  mkWorld (disk w) (written w) (console w ++ [Done (List.length pages)])%list.

End Converter.

Arguments mkWorld {FS} disk written console.
Arguments disk {FS} w.
Arguments written {FS} w.
Arguments console {FS} w.
Arguments convertPage data {FS} writeFileSync index page w.
Arguments convertPages data {FS} writeFileSync index pages w.
Arguments main data {FS} writeFileSync disk0.

(* ===================================================================== *)
(** * Part II: the vocabulary of the specification *)
(* ===================================================================== *)

(** The empty snapshot, for what does not look anything up. *)
Definition noData : snapshot := mkSnapshot [] [].

(* ===================================================================== *)
(** ** Text nodes and their marks *)
(* ===================================================================== *)

Module TextSpec.

(** The wrap a mark of a given type stands for: [bold] puts the text
    between two pairs of asterisks, [code] between backticks, anything
    else leaves it alone. *)
Definition wrap (ty : option string) (text : string) : string :=
  match ty with
  | Some "bold" => "**" ++ text ++ "**"
  | Some "code" => "`" ++ text ++ "`"
  | _ => text
  end.

(** The marks applied one after the other in listed order, each wrap
    around the result of the previous ones. *)
Fixpoint wrapAll (marks : list Node.mark) (text : string) : string :=
  match marks with
  | [] => text
  | m :: rest => wrapAll rest (wrap (Node.type m) text)
  end.

Definition listed (marks : option (list Node.mark)) : list Node.mark :=
  match marks with
  | Some l => l
  | None => []
  end.

End TextSpec.

Definition bold : Node.mark := Node.mkMark (Some "bold").
Definition code : Node.mark := Node.mkMark (Some "code").

(** A text node with a literal value; the other properties are free. *)
Definition textNode (content : option (list (option Node.t)))
  (dat : option Node.data_t) (value : string) (marks : option (list Node.mark))
  : Node.t :=
  Node.mk (Some "text") content dat (Some value) marks.

(* ===================================================================== *)
(** ** Tables *)
(* ===================================================================== *)

Module TableSpec.

(** One row of the table as a pipe-delimited line. *)
Definition rowLine (cells : list string) : string :=
  "| " ++ Arr.joinStrings " | " cells ++ " |" ++ nl.

(** The separator line for a given number of columns. *)
Definition separatorLine (columns : nat) : string :=
  "| " ++ Arr.joinStrings " | " (repeat "---" columns) ++ " |" ++ nl.

(** The lines of a table whose rows have the given cell texts: the rows in
    order, and one separator line right behind the first row. *)
Definition lines (rows : list (list string)) : list string :=
  match rows with
  | [] => []
  | first :: others =>
      rowLine first :: separatorLine (List.length first) :: map rowLine others
  end.

(** The text of a cell: its children's renderings concatenated, then
    trimmed. *)
Definition cellText (children : list jsval) : string :=
  Str.trim (Arr.join "" children).

(** White space only. *)
Fixpoint allWhiteSpace (s : string) : bool :=
  match s with
  | EmptyString => true
  | String c r => Str.isWhiteSpace c && allWhiteSpace r
  end.

Definition startsWithSpace (s : string) : bool :=
  match s with
  | String c _ => Str.isWhiteSpace c
  | EmptyString => false
  end.

Fixpoint endsWithSpace (s : string) : bool :=
  match s with
  | EmptyString => false
  | String c EmptyString => Str.isWhiteSpace c
  | String _ r => endsWithSpace r
  end.

(** [t] is [s] without the white space around it. *)
Definition trimmed (s t : string) : Prop :=
  startsWithSpace t = false
  /\ endsWithSpace t = false
  /\ exists l r,
      s = l ++ t ++ r /\ allWhiteSpace l = true /\ allWhiteSpace r = true.

(** The number of line feeds in a string. *)
Fixpoint lineFeeds (s : string) : nat :=
  match s with
  | EmptyString => 0
  | String c r => (if Ascii.eqb c (ascii_of_nat 10) then 1 else 0) + lineFeeds r
  end.

(** The white space of the language among the code units below 256, by
    code: TAB, LF, VT, FF, CR, SP and NBSP. *)
Definition whiteSpace (c : ascii) : bool :=
  existsb (Nat.eqb (nat_of_ascii c)) [9; 10; 11; 12; 13; 32; 160].

Fixpoint every (p : ascii -> bool) (s : string) : bool :=
  match s with
  | EmptyString => true
  | String c r => p c && every p r
  end.

Definition firstIs (p : ascii -> bool) (s : string) : bool :=
  match s with
  | String c _ => p c
  | EmptyString => false
  end.

Fixpoint lastIs (p : ascii -> bool) (s : string) : bool :=
  match s with
  | EmptyString => false
  | String c EmptyString => p c
  | String _ r => lastIs p r
  end.

(** [t] is [s] with the white space at both ends taken off, all of it and
    nothing else. *)
Definition stripped (s t : string) : Prop :=
  firstIs whiteSpace t = false
  /\ lastIs whiteSpace t = false
  /\ exists l r,
      s = l ++ t ++ r /\ every whiteSpace l = true /\ every whiteSpace r = true.

(** The lines of a text: what stands between two line feeds, before the
    first one, and behind the last one when the text does not end with a
    line feed. *)
Fixpoint linesOf (s : string) : list string :=
  match s with
  | EmptyString => []
  | String c r =>
      if Ascii.eqb c (ascii_of_nat 10) then EmptyString :: linesOf r
      else match linesOf r with
           | [] => [String c EmptyString]
           | l :: ls => String c l :: ls
           end
  end.

(** A text without line feed. *)
Definition oneLine (s : string) : Prop := lineFeeds s = 0.

(** One row of the table, without the line feed that ends it. *)
Definition rowText (cells : list string) : string :=
  "| " ++ Arr.joinStrings " | " cells ++ " |".

(** The separator, without the line feed that ends it. *)
Definition separatorText (columns : nat) : string :=
  "| " ++ Arr.joinStrings " | " (repeat "---" columns) ++ " |".

End TableSpec.

(** A cell node whose children render to [parts] has the text
    [cellText parts]. *)
Inductive rendersCell (data : snapshot) : option Node.t -> string -> Prop :=
| RendersCell (c : Node.t) kids parts :
    Node.content c = Some kids ->
    Forall2 (fun k p => processNode data k = Ok p) kids parts ->
    rendersCell data (Some c) (TableSpec.cellText parts).

(** A row node whose cells render has the list of their texts. *)
Inductive rendersRow (data : snapshot) : option Node.t -> list string -> Prop :=
| RendersRow (r : Node.t) cs cells :
    Node.content r = Some cs ->
    Forall2 (rendersCell data) cs cells ->
    rendersRow data (Some r) cells.

(** What [rows.forEach] appends from row index [i] on. *)
Fixpoint linesFrom (i : nat) (rows : list (list string)) : string :=
  match rows with
  | [] => ""
  | cells :: rest =>
      TableSpec.rowLine cells
      ++ (if Nat.eqb i 0 then TableSpec.separatorLine (List.length cells) else "")
      ++ linesFrom (S i) rest
  end.

(* ===================================================================== *)
(** ** Embedded assets *)
(* ===================================================================== *)

Module AssetSpec.

(** The URL put into the image tag: a protocol-relative URL gets the
    scheme [https:] in front, any other URL is taken as it is. *)
Definition explicitUrl (url : string) : string :=
  match url with
  | String a (String b _) =>
      if (Ascii.eqb a "/" && Ascii.eqb b "/")%bool then "https:" ++ url else url
  | _ => url
  end.

(** The image tag, between two blank lines. *)
Definition image (title url : string) : string :=
  nl ++ nl ++ "![" ++ title ++ "](" ++ explicitUrl url ++ ")" ++ nl ++ nl.

End AssetSpec.

(** An embedded-asset block that refers to the asset [id]; the properties
    the case does not read are free. *)
Definition assetBlock (content : option (list (option Node.t)))
  (uri : option string) (id : option string) (value : option string)
  (marks : option (list Node.mark)) : Node.t :=
  Node.mk (Some "embedded-asset-block") content
          (Some (Node.mkData uri (Some (Node.mkLink (Some (Sys.mk id))))))
          value marks.

(** The asset carries the identifier [id]. *)
Definition hasId (id : option string) (a : Asset.t) : Prop :=
  exists s, Asset.sys a = Some s /\ Sys.id s = id.

(** The asset carries an identifier, another one than [id]. *)
Definition hasOtherId (id : option string) (a : Asset.t) : Prop :=
  exists s, Asset.sys a = Some s /\ Sys.id s <> id.

(** No asset of the snapshot has the identifier [id]. *)
Definition assetMissing (data : snapshot) (id : option string) : Prop :=
  Forall (hasOtherId id) (assets data).

(** [asset] is the first asset of the snapshot with the identifier [id]. *)
Definition assetResolves (data : snapshot) (id : option string) (asset : Asset.t)
  : Prop :=
  exists before after,
    assets data = (before ++ asset :: after)%list
    /\ Forall (hasOtherId id) before
    /\ hasId id asset.

(* ===================================================================== *)
(** ** File names *)
(* ===================================================================== *)

Module SlugSpec.

(** Letters and digits. *)
Definition alphanumeric (c : ascii) : bool :=
  Str.in_range 97 122 c || Str.in_range 65 90 c || Str.in_range 48 57 c.

(** The maximal runs of a string: consecutive characters on which [p]
    takes the same value, each run with that value. *)
Fixpoint runs (p : ascii -> bool) (s : string) : list (bool * string) :=
  match s with
  | EmptyString => []
  | String c r =>
      match runs p r with
      | (b, run) :: rest =>
          if Bool.eqb b (p c)
          then (b, String c run) :: rest
          else (p c, String c EmptyString) :: (b, run) :: rest
      | [] => [(p c, String c EmptyString)]
      end
  end.

Definition cat (l : list string) : string := fold_right append "" l.

(** A run of alphanumeric characters stays, any other run becomes one
    hyphen. *)
Definition hyphenOr (r : bool * string) : string :=
  if fst r then snd r else "-".

(** Every maximal run of non-alphanumeric characters replaced by a single
    hyphen. *)
Definition hyphenate (s : string) : string :=
  cat (map hyphenOr (runs alphanumeric s)).

(** All hyphens at the start removed. *)
Fixpoint stripLeading (s : string) : string :=
  match s with
  | EmptyString => EmptyString
  | String c r => if Str.isHyphen c then stripLeading r else s
  end.

(** All hyphens at the end removed. *)
Fixpoint stripTrailing (s : string) : string :=
  match s with
  | EmptyString => EmptyString
  | String c r =>
      match stripTrailing r with
      | EmptyString => if Str.isHyphen c then EmptyString else String c EmptyString
      | r' => String c r'
      end
  end.

(** The file name of a page title: lower-cased, runs of non-alphanumeric
    characters replaced by a hyphen, hyphens at both ends stripped, and
    the extension added. *)
Definition filename (title : string) : string :=
  stripTrailing (stripLeading (hyphenate (Str.toLowerCase title))) ++ ".mdx".

End SlugSpec.

(** Two neighbours of a list of runs never carry the same value. *)
Fixpoint alternating (l : list (bool * string)) : Prop :=
  match l with
  | a :: ((b :: _) as rest) => fst a <> fst b /\ alternating rest
  | _ => True
  end.

(** What the scan yields inside a match: the hyphen of the current run is
    already out. *)
Definition afterRun (l : list (bool * string)) : string :=
  match l with
  | (false, _) :: rest => SlugSpec.cat (map SlugSpec.hyphenOr rest)
  | _ => SlugSpec.cat (map SlugSpec.hyphenOr l)
  end.

(** No two hyphens in a row. *)
Fixpoint separated (s : string) : Prop :=
  match s with
  | String a ((String b _) as r) =>
      (Str.isHyphen a && Str.isHyphen b = false)%bool /\ separated r
  | _ => True
  end.

Definition startsWithHyphen (s : string) : bool :=
  match s with
  | String c _ => Str.isHyphen c
  | EmptyString => false
  end.

(** A character that is neither a letter nor a digit. *)
Definition isSymbol (c : ascii) : bool := negb (SlugSpec.alphanumeric c).

(* ===================================================================== *)
(** ** Pages *)
(* ===================================================================== *)

Module PageSpec.

(** The description as it gets printed: a string that is not empty. *)
Definition printed (description : jsval) : option string :=
  match description with
  | JString EmptyString => None
  | JString d => Some d
  | JUndefined => None
  end.

(** The front matter: the title line, the description line when there is a
    description to print, between two lines of three hyphens. *)
Definition frontMatter (title : string) (description : option string) : string :=
  "---" ++ nl
  ++ "title: " ++ dq ++ title ++ dq ++ nl
  ++ match description with
     | Some d => "description: " ++ dq ++ d ++ dq ++ nl
     | None => ""
     end
  ++ "---" ++ nl ++ nl.

(** The level-1 heading. *)
Definition heading (title : string) : string := "# " ++ title ++ nl ++ nl.

(** The description paragraph. *)
Definition paragraph (description : option string) : string :=
  match description with
  | Some d => d ++ nl ++ nl
  | None => ""
  end.

End PageSpec.

(** No entry of the snapshot has the identifier the reference carries. *)
Definition unresolved (data : snapshot) (ref : Entry.ref) : Prop :=
  exists s,
    Entry.ref_sys ref = Some s
    /\ Forall (fun e => Entry.id e <> Sys.id s) (entries data).

(** A page entry with the given title and description fields and no
    content. *)
Definition barePage (title description : option (Localized.t string)) : Entry.t :=
  Entry.mk (Some "p1") (Some "page")
           (Some (Entry.mkFields title description None)).

(** The same page without its content field. *)
Definition withoutContent (page : Entry.t) (f : Entry.fields_t) : Entry.t :=
  Entry.mk (Entry.id page) (Entry.contentType page)
           (Some (Entry.mkFields (Entry.title f) (Entry.description f) None)).

Definition localized (s : string) : option (Localized.t string) :=
  Some (Localized.mk (Some s)).

(* ===================================================================== *)
(** ** The page loop *)
(* ===================================================================== *)

(** What a stretch of the loop does: the state of the file system it
    leaves, the writes that returned, the console entries. *)
Record trace (FS : Type) : Type := mkTrace {
  t_disk : FS;
  t_files : list (string * string);
  t_lines : list line
}.

Arguments mkTrace {FS} t_disk t_files t_lines.
Arguments t_disk {FS} t.
Arguments t_files {FS} t.
Arguments t_lines {FS} t.

Section Loop.

Variable data : snapshot.
Variable FS : Type.
Variable writeFileSync : FS -> string -> string -> FS * option error.

(** The three ways a page can go, on a given state of the file system: it
    is assembled and written, it is assembled and the write throws, its
    assembly throws. *)
Definition pageStep (d : FS) (index : nat) (page : Entry.t) : trace FS :=
  match assemblePage data page with
  | Ok doc =>
      match writeFileSync d (filepath (filename doc)) (markdown doc) with
      | (d', None) =>
          mkTrace d' [(filepath (filename doc), markdown doc)]
                  [Converted (doc_title doc) (filename doc)]
      | (d', Some e) => mkTrace d' [] [ErrorConverting index (message e)]
      end
  | Throw e => mkTrace d [] [ErrorConverting index (message e)]
  end.

(** The pages one after the other, each on the file system the one before
    it left. *)
Fixpoint runFrom (index : nat) (pages : list Entry.t) (d : FS) : trace FS :=
  match pages with
  | [] => mkTrace d [] []
  | page :: rest =>
      let here := pageStep d index page in
      let later := runFrom (S index) rest (t_disk here) in
      mkTrace (t_disk later)
              (t_files here ++ t_files later)%list
              (t_lines here ++ t_lines later)%list
  end.

(** The state after a stretch of the loop that started in [w]. *)
Definition extend (w : world FS) (t : trace FS) : world FS :=
  mkWorld (t_disk t) (written w ++ t_files t)%list (console w ++ t_lines t)%list.

(** The two places of the [try] block where a page can fail, on the file
    system [d]: its assembly throws [e], before anything touches the file
    system; or its document is assembled and the write throws [e], leaving
    the file system as [d']. *)
Definition failsWith (d : FS) (page : Entry.t) (e : error) (d' : FS) : Prop :=
  (assemblePage data page = Throw e /\ d' = d)
  \/ (exists doc,
        assemblePage data page = Ok doc
        /\ writeFileSync d (filepath (filename doc)) (markdown doc) = (d', Some e)).

End Loop.

Arguments pageStep data {FS} writeFileSync d index page.
Arguments runFrom data {FS} writeFileSync index pages d.
Arguments extend {FS} w t.
Arguments failsWith data {FS} writeFileSync d page e d'.

(** A console line without the page index it may carry. *)
Definition unindexed (l : line) : line :=
  match l with
  | ErrorConverting _ msg => ErrorConverting 0 msg
  | other => other
  end.

(* ===================================================================== *)
(** ** A sample export *)
(* ===================================================================== *)

Module Sample.

Definition text (value : string) : option Node.t :=
  Some (Node.mk (Some "text") None None (Some value) None).

Definition paragraph (value : string) : option Node.t :=
  Some (Node.mk (Some "paragraph") (Some [text value]) None None None).

Definition cell (value : string) : option Node.t :=
  Some (Node.mk (Some "table-cell") (Some [paragraph value]) None None None).

Definition row (values : list string) : option Node.t :=
  Some (Node.mk (Some "table-row") (Some (map cell values)) None None None).

(** Two rows of three columns; one cell has white space around its text. *)
Definition table : Node.t :=
  Node.mk (Some "table")
          (Some [row ["Name"; " Unit "; "Price"]; row ["Tea"; "cup"; "2"]])
          None None None.

Definition asset (id : string) (file : option (Localized.t Asset.file_t))
  (title : option (Localized.t string)) : Asset.t :=
  Asset.mk (Some (Sys.mk (Some id))) (Some (Asset.mkFields file title)).

Definition fileAt (url : string) : option (Localized.t Asset.file_t) :=
  Some (Localized.mk (Some (Asset.mkFile (Some url)))).

Definition draft : Asset.t := asset "a0" None None.
Definition photo : Asset.t := asset "a1" (fileAt "//images.example.com/a.png") None.
Definition logo : Asset.t :=
  asset "a2" (fileAt "https://cdn.example.com/logo.svg") (localized "Logo").

Definition block : Entry.t :=
  Entry.mk (Some "b1") (Some "contentBlock")
    (Some (Entry.mkFields (localized "Section A") None
             (Some (Localized.mk (Some (Entry.RichText
                (Node.mk (Some "document")
                   (Some [Some (Node.mk (Some "paragraph")
                            (Some [text "Hi ";
                                   Some (textNode None None "there" (Some [bold]))])
                            None None None)])
                   None None None))))))).

Definition refTo (id : string) : Entry.ref :=
  Entry.mkRef (Some (Sys.mk (Some id))).

Definition pageFields (title description : option (Localized.t string))
  (refs : list Entry.ref) : Entry.fields_t :=
  Entry.mkFields title description (Some (Localized.mk (Some (Entry.Refs refs)))).

Definition page (id : string) (title description : option (Localized.t string))
  (refs : list Entry.ref) : Entry.t :=
  Entry.mk (Some id) (Some "page") (Some (pageFields title description refs)).

(** A page with its block. *)
Definition intro : Entry.t :=
  page "p1" (localized "Intro") (localized "Welcome") [refTo "b1"].

(** A page whose only reference is to an entry that is not there. *)
Definition orphan : Entry.t :=
  page "p2" (localized "Hello, World!  2024") None [refTo "gone"].

(** A page entry without fields: reading its title throws. *)
Definition broken : Entry.t := Entry.mk (Some "p3") (Some "page") None.

Definition export : snapshot :=
  mkSnapshot [intro; block; broken; orphan] [draft; photo; logo].

(** What the block of [intro] renders to, below its heading. *)
Definition introBlocks : string :=
  "### Section A" ++ nl ++ nl ++ "Hi **there**" ++ nl ++ nl.

(** The document expected for [intro]. *)
Definition introMarkdown : string :=
  "---" ++ nl
  ++ "title: " ++ dq ++ "Intro" ++ dq ++ nl
  ++ "description: " ++ dq ++ "Welcome" ++ dq ++ nl
  ++ "---" ++ nl ++ nl
  ++ "# Intro" ++ nl ++ nl
  ++ "Welcome" ++ nl ++ nl
  ++ introBlocks.

(** The document expected for [orphan]. *)
Definition orphanMarkdown : string :=
  "---" ++ nl
  ++ "title: " ++ dq ++ "Hello, World!  2024" ++ dq ++ nl
  ++ "---" ++ nl ++ nl
  ++ "# Hello, World!  2024" ++ nl ++ nl.

(** Two rows of three columns; the text of the first cell has a line feed
    in it. *)
Definition tornTable : Node.t :=
  Node.mk (Some "table")
          (Some [row ["a" ++ nl ++ "b"; "B"; "C"]; row ["D"; "E"; "F"]])
          None None None.

(** A file system for the examples: the files by path.  A write replaces
    the file of that path or adds it, and is refused when the name of the
    file is longer than 255 characters. *)
Definition files : Type := list (string * string).

Definition put (d : files) (path text : string) : files :=
  (filter (fun f => negb (String.eqb (fst f) path)) d ++ [(path, text)])%list.

Definition nameOf (path : string) : string :=
  String.substring 16 (String.length path - 16) path.

Definition writeFileSync (d : files) (path text : string) : files * option error :=
  if Nat.ltb 255 (String.length (nameOf path))
  then (d, Some (SystemError ("ENAMETOOLONG: name too long, open '" ++ path ++ "'")))
  else (put d path text, None).

Fixpoint letters (n : nat) : string :=
  match n with
  | O => EmptyString
  | S m => String "a" (letters m)
  end.

(** A page whose file name has 256 characters. *)
Definition endless : Entry.t := page "p4" (localized (letters 252)) None [].

(** A second page filed under the name of [intro]. *)
Definition again : Entry.t := page "p5" (localized "INTRO!") None [].

Definition export2 : snapshot :=
  mkSnapshot [intro; block; endless; again; orphan] [].

End Sample.

(** Nodes of a given kind, for the examples. *)
Module Kinds.

Definition node (kind : string) (kids : list (option Node.t)) : option Node.t :=
  Some (Node.mk (Some kind) (Some kids) None None None).

Definition leaf (kind : string) : option Node.t :=
  Some (Node.mk (Some kind) None None None None).

Definition link (uri : option Node.data_t) (label : string) : option Node.t :=
  Some (Node.mk (Some "hyperlink") (Some [Sample.text label]) uri None None).

End Kinds.

(* ===================================================================== *)
(** ** Further vocabulary: kinds, marks, file names, console *)
(* ===================================================================== *)

Module KindSpec.

(** The kinds whose case maps over [node.content] without testing it. *)
Definition containers : list string :=
  ["document"; "paragraph"; "heading-2"; "heading-3";
   "unordered-list"; "ordered-list"; "list-item"; "hyperlink"].

(** The kinds with a case of their own that does not map over the
    children with [processNode]. *)
Definition special : list string := ["embedded-asset-block"; "text"; "table"].

(** Every kind the [switch] names. *)
Definition named : list string := (containers ++ special)%list.

(** The kind of a node is none of the given ones; a node without
    [nodeType] has no kind. *)
Definition noneOf (kinds : list string) (ty : option string) : Prop :=
  forall k, ty = Some k -> ~ In k kinds.

(** The kinds that render as their children's renderings one after the
    other: paragraphs, list items, and every kind the [switch] does not
    name. *)
Definition inline (ty : option string) : Prop :=
  ty = Some "paragraph" \/ ty = Some "list-item" \/ noneOf named ty.

End KindSpec.

Module MarkSpec.

(** The characters a mark puts on either side of the text. *)
Definition tag (m : Node.mark) : string :=
  if is_lit (Node.type m) "bold" then "**"
  else if is_lit (Node.type m) "code" then "`"
  else "".

(** The mark is one the renderer knows. *)
Definition recognised (m : Node.mark) : bool :=
  is_lit (Node.type m) "bold" || is_lit (Node.type m) "code".

(** What stands before the text: the tags, last mark first. *)
Definition opening (marks : list Node.mark) : string :=
  SlugSpec.cat (map tag (rev marks)).

(** What stands behind the text: the tags, first mark first. *)
Definition closing (marks : list Node.mark) : string :=
  SlugSpec.cat (map tag marks).

(** A text node without [value]. *)
Definition valueless (marks : option (list Node.mark)) : Node.t :=
  Node.mk (Some "text") None None None marks.

End MarkSpec.

Module NameSpec.

(** Every character of the string satisfies [p]. *)
Fixpoint allChars (p : ascii -> bool) (s : string) : bool :=
  match s with
  | EmptyString => true
  | String c r => p c && allChars p r
  end.

(** A lower-case letter, a digit or a hyphen. *)
Definition safeChar (c : ascii) : bool := Str.isAlnum c || Str.isHyphen c.

Fixpoint endsWithHyphen (s : string) : bool :=
  match s with
  | EmptyString => false
  | String c EmptyString => Str.isHyphen c
  | String _ r => endsWithHyphen r
  end.

(** The file name without its extension, as lines 154 to 156 compute it. *)
Definition base (title : string) : string :=
  Str.stripEdgeHyphens (Str.replaceRuns (Str.toLowerCase title)).

(** A file name base as the converter makes them: safe characters, no
    hyphen at either end, no two hyphens in a row. *)
Definition wellFormed (b : string) : Prop :=
  allChars safeChar b = true
  /\ startsWithHyphen b = false
  /\ endsWithHyphen b = false
  /\ separated b.

End NameSpec.

Module ConsoleSpec.


End ConsoleSpec.

(** The items of a list, numbered from 1, one per line. *)
Fixpoint numbered (i : nat) (items : list jsval) : list string :=
  match items with
  | [] => []
  | v :: rest => (Str.ofNat (S i) ++ ". " ++ toString v) :: numbered (S i) rest
  end.

(** A node of the given kind with the given children and nothing else. *)
Definition parent (kind : option string) (kids : list (option Node.t))
  (dat : option Node.data_t) : Node.t :=
  Node.mk kind (Some kids) dat None None.

(** A table cell, a table row: nodes with children. *)
Definition boxOf (kids : list (option Node.t)) : option Node.t :=
  Some (Node.mk None (Some kids) None None None).

(* ===================================================================== *)
(** * Part III: the proofs *)
(* ===================================================================== *)

Lemma append_assoc (a b c : string) : (a ++ b) ++ c = a ++ (b ++ c).
Proof. induction a as [|x a IH]; simpl; [reflexivity | now rewrite IH]. Qed.

Lemma append_empty_r (a : string) : a ++ "" = a.
Proof. induction a as [|x a IH]; simpl; [reflexivity | now rewrite IH]. Qed.

(** Brings both sides of an equation between concatenations to the same
    right-nested form. *)
Ltac string_norm :=
  repeat (cbn [append]; rewrite ?append_assoc, ?append_empty_r).

(* ===================================================================== *)
(** ** The renderer on each kind of node *)
(* ===================================================================== *)

Example document_joins_with_blank_lines :
  processNode noData
    (Kinds.node "document"
       [Kinds.node "heading-2" [Sample.text "Title"];
        Kinds.node "heading-3" [Sample.text "Sub"];
        Kinds.node "paragraph" [Sample.text "a"; Sample.text "b"]])
  = Ok (JString ("## Title" ++ nl ++ nl ++ "### Sub" ++ nl ++ nl ++ "ab")).
Proof. reflexivity. Qed.

Example lists_prefix_their_items :
  processNode noData
    (Kinds.node "unordered-list"
       [Kinds.node "list-item" [Sample.paragraph "a"];
        Kinds.node "list-item" [Sample.paragraph "b"]])
  = Ok (JString ("- a" ++ nl ++ "- b"))
  /\ processNode noData
       (Kinds.node "ordered-list"
          [Kinds.node "list-item" [Sample.text "a"]; None; Kinds.leaf "text"])
     = Ok (JString ("1. a" ++ nl ++ "2. " ++ nl ++ "3. undefined")).
Proof. split; reflexivity. Qed.

Example hyperlink_uses_its_uri :
  processNode noData (Kinds.link (Some (Node.mkData (Some "https://x.org") None)) "site")
  = Ok (JString "[site](https://x.org)")
  /\ processNode noData (Kinds.link (Some (Node.mkData None None)) "site")
     = Ok (JString "[site](undefined)")
  /\ processNode noData (Kinds.link None "site")
     = Throw (TypeError_read JsUndefined "uri").
Proof. repeat split; reflexivity. Qed.

Example other_kinds_fall_back_to_their_children :
  processNode noData (Kinds.node "blockquote" [Sample.paragraph "q"])
  = Ok (JString "q")
  /\ processNode noData (Kinds.leaf "hr") = Ok (JString "")
  /\ processNode noData None = Ok (JString "")
  /\ processNode noData (Kinds.leaf "paragraph")
     = Throw (TypeError_read JsUndefined "map").
Proof. repeat split; reflexivity. Qed.

Example table_sits_between_blank_lines :
  processNode noData (Some Sample.table)
  = Ok (JString (nl ++ nl
                 ++ "| Name | Unit | Price |" ++ nl
                 ++ "| --- | --- | --- |" ++ nl
                 ++ "| Tea | cup | 2 |" ++ nl
                 ++ nl ++ nl))
  /\ processNode noData (Kinds.node "table" [None])
     = Throw (TypeError_read JsNull "content").
Proof. split; reflexivity. Qed.

Example document_without_content_is_empty :
  richTextToMarkdown noData
    (Entry.RichText (Node.mk (Some "document") None None None None))
  = Ok (JString "")
  /\ richTextToMarkdown noData (Entry.Refs [Sample.refTo "b1"]) = Ok (JString "")
  /\ processNode noData (Kinds.node "document" []) = Ok (JString "").
Proof. repeat split; reflexivity. Qed.

(* ===================================================================== *)
(** ** Text nodes and their marks *)
(* ===================================================================== *)

Lemma is_lit_true (a : option string) (lit : string) :
  is_lit a lit = true <-> a = Some lit.
Proof.
  unfold is_lit, strict_eq. destruct a as [x|].
  - rewrite String.eqb_eq. split; intros H; [subst | injection H]; auto.
  - split; discriminate.
Qed.

Lemma applyMark_wrap (m : Node.mark) (s : string) :
  applyMark m (JString s) = JString (TextSpec.wrap (Node.type m) s).
Proof.
  unfold applyMark, TextSpec.wrap.
  destruct (is_lit (Node.type m) "bold") eqn:Hb.
  - apply is_lit_true in Hb. rewrite Hb. reflexivity.
  - destruct (is_lit (Node.type m) "code") eqn:Hc.
    + apply is_lit_true in Hc. rewrite Hc. reflexivity.
    + destruct (Node.type m) as [ty|]; [|reflexivity].
      destruct (String.eqb_spec ty "bold") as [->|Hnb];
        [rewrite (proj2 (is_lit_true _ _) eq_refl) in Hb; discriminate|].
      destruct (String.eqb_spec ty "code") as [->|Hnc];
        [rewrite (proj2 (is_lit_true _ _) eq_refl) in Hc; discriminate|].
      clear Hb Hc.
      repeat (let c := fresh "c" in
              destruct ty as [|c ty]; [reflexivity|];
              destruct c as [[] [] [] [] [] [] [] []]; try reflexivity).
      all: destruct ty; [congruence | reflexivity].
Qed.

Lemma fold_applyMark (marks : list Node.mark) (s : string) :
  fold_left (fun text mark => applyMark mark text) marks (JString s)
  = JString (TextSpec.wrapAll marks s).
Proof.
  revert s. induction marks as [|m marks IH]; intros s; simpl.
  - reflexivity.
  - rewrite applyMark_wrap. apply IH.
Qed.

Lemma processObject_text (data : snapshot) (n : Node.t) :
  Node.nodeType n = Some "text" ->
  processObject data n = Ok (processText n).
Proof.
  intros H. destruct n as [ty c d v m]. simpl in H. subst ty. reflexivity.
Qed.

(** C1.  A text node renders as its literal value with the marks applied
    as wraps in the order they are listed, each around the result of the
    previous ones: [bold] wraps in double asterisks, [code] in backticks,
    a mark of any other type changes nothing. *)
Theorem text_marks_wrap_in_listed_order :
  forall (data : snapshot) content dat (value : string) marks,
    processNode data (Some (textNode content dat value marks))
    = Ok (JString (TextSpec.wrapAll (TextSpec.listed marks) value)).
Proof.
  intros data content dat value marks.
  unfold processNode. rewrite processObject_text by reflexivity.
  unfold processText; simpl. destruct marks as [l|]; simpl.
  - now rewrite fold_applyMark.
  - reflexivity.
Qed.

(** C2, as stated, fails on its third case: with the marks [bold] then
    [code] the bold wrap is applied first and the backticks go around it. *)
Lemma bold_then_code_is_not_bold_outermost :
  processNode noData (Some (textNode None None "v" (Some [bold; code])))
  <> Ok (JString "**`v`**").
Proof. vm_compute. discriminate. Qed.

(** C2, amended.  A text node with value [v] renders as [**v**] with the
    marks [bold], as [v] between backticks with the marks [code], and with
    the marks [bold], [code] in that order as [**v**] between backticks:
    the bold wrap innermost, the backticks outermost.  The rendering with
    bold outermost is the one of the marks [code], [bold]. *)
Theorem text_bold_code_examples :
  forall (data : snapshot) content dat (v : string),
    let render marks := processNode data (Some (textNode content dat v (Some marks))) in
    render [bold] = Ok (JString ("**" ++ v ++ "**"))
    /\ render [code] = Ok (JString ("`" ++ v ++ "`"))
    /\ render [bold; code] = Ok (JString ("`" ++ ("**" ++ v ++ "**") ++ "`"))
    /\ render [code; bold] = Ok (JString ("**" ++ ("`" ++ v ++ "`") ++ "**")).
Proof.
  intros data content dat v render. unfold render, processNode.
  rewrite !processObject_text by reflexivity.
  repeat split; reflexivity.
Qed.


(* ===================================================================== *)
(** ** Tables *)
(* ===================================================================== *)

Section TrimProofs.

Import TableSpec.

Lemma trimStart_spec (s : string) :
  startsWithSpace (Str.trimStart s) = false
  /\ exists l, s = l ++ Str.trimStart s /\ allWhiteSpace l = true.
Proof.
  induction s as [|c r [IH1 (l & IH2 & IH3)]]; simpl.
  - split; [reflexivity|]. exists "". split; reflexivity.
  - destruct (Str.isWhiteSpace c) eqn:Hc.
    + split; [exact IH1|]. exists (String c l). simpl. rewrite Hc, IH3.
      split; [now rewrite <- IH2 | reflexivity].
    + split; [exact Hc|]. exists "". split; reflexivity.
Qed.

Lemma trimEnd_blank (s : string) :
  allWhiteSpace s = true -> Str.trimEnd s = "".
Proof.
  induction s as [|c r IH]; simpl; [reflexivity|]. intros H.
  apply andb_prop in H. destruct H as [Hc Hr]. now rewrite (IH Hr), Hc.
Qed.

Lemma trimEnd_spec (s : string) :
  endsWithSpace (Str.trimEnd s) = false
  /\ startsWithSpace (Str.trimEnd s) = startsWithSpace s && negb (allWhiteSpace s)
  /\ exists r, s = Str.trimEnd s ++ r /\ allWhiteSpace r = true.
Proof.
  induction s as [|c t (IH1 & IH2 & r & IH3 & IH4)]; simpl.
  - split; [reflexivity|]. split; [reflexivity|]. exists "". split; reflexivity.
  - destruct (Str.trimEnd t) as [|d u] eqn:E.
    + simpl in IH3. subst r. destruct (Str.isWhiteSpace c) eqn:Hc; simpl.
      * split; [reflexivity|]. rewrite IH4. split; [reflexivity|].
        exists (String c t). simpl. rewrite Hc, IH4. split; reflexivity.
      * split; [exact Hc|]. rewrite Hc. split; [reflexivity|].
        exists t. split; [reflexivity | exact IH4].
    + split; [exact IH1|]. split.
      * simpl. destruct (Str.isWhiteSpace c); [|reflexivity]. simpl.
        destruct (allWhiteSpace t) eqn:Ht; [|reflexivity].
        rewrite (trimEnd_blank t Ht) in E. discriminate.
      * exists r. split; [simpl; f_equal; exact IH3 | exact IH4].
Qed.

(** [trim] removes the white space around a string, all of it and nothing
    else. *)
Lemma trim_trimmed (s : string) : trimmed s (Str.trim s).
Proof.
  unfold trimmed, Str.trim.
  destruct (trimStart_spec s) as (Hs & l & Hl & Hlw).
  destruct (trimEnd_spec (Str.trimStart s)) as (He & Hse & r & Hr & Hrw).
  split; [|split; [exact He|]].
  - rewrite Hse, Hs. reflexivity.
  - exists l, r. split; [|split; assumption]. now rewrite <- Hr.
Qed.

End TrimProofs.

Lemma map_Forall2 {A B : Type} (f : A -> result B) (l : list A) (ys : list B) :
  Forall2 (fun x y => f x = Ok y) l ys -> Arr.map f l = Ok ys.
Proof.
  induction 1 as [|x y l ys Hxy _ IH]; simpl.
  - reflexivity.
  - rewrite Hxy. simpl. rewrite IH. reflexivity.
Qed.

Lemma map_Ok_Forall2 {A B : Type} (f : A -> result B) (l : list A) (ys : list B) :
  Arr.map f l = Ok ys -> Forall2 (fun x y => f x = Ok y) l ys.
Proof.
  revert ys. induction l as [|x l IH]; simpl; intros ys H.
  - injection H as <-. constructor.
  - destruct (f x) as [y|] eqn:Hx; [|discriminate]. simpl in H.
    destruct (Arr.map f l) as [ys'|]; [|discriminate]. simpl in H.
    injection H as <-. constructor; auto.
Qed.

Section TableProofs.

Variable data : snapshot.

Lemma rendersCell_intro (c : Node.t) kids parts text :
  Node.content c = Some kids ->
  Arr.map (processNode data) kids = Ok parts ->
  text = TableSpec.cellText parts ->
  rendersCell data (Some c) text.
Proof. intros Hc Hk ->. econstructor; eauto using map_Ok_Forall2. Qed.

Lemma processCell_renders (cell : option Node.t) (text : string) :
  rendersCell data cell text -> processCell (processNode data) cell = Ok text.
Proof.
  intros [c kids parts Hc Hkids]. unfold processCell. rewrite Hc.
  rewrite (map_Forall2 _ _ _ Hkids). reflexivity.
Qed.

Lemma placeholders_repeat (cells : list string) :
  map (fun _ : string => "---") cells = repeat "---" (List.length cells).
Proof. induction cells as [|c cells IH]; simpl; [reflexivity | now rewrite IH]. Qed.

Lemma processRow_renders (i : nat) (row : option Node.t) (cells : list string)
  (markdown : string) :
  rendersRow data row cells ->
  processRow (processNode data) i row markdown
  = Ok (markdown ++ TableSpec.rowLine cells
        ++ (if Nat.eqb i 0 then TableSpec.separatorLine (List.length cells) else "")).
Proof.
  intros [r cs cells' Hr Hcs]. unfold processRow. rewrite Hr.
  rewrite (map_Forall2 (processCell (processNode data)) cs cells').
  - simpl. unfold TableSpec.rowLine, TableSpec.separatorLine.
    rewrite placeholders_repeat. destruct (Nat.eqb i 0); now string_norm.
  - clear Hr. induction Hcs; constructor; auto using processCell_renders.
Qed.

Lemma forEach_rows (rows : list (option Node.t)) (texts : list (list string)) :
  Forall2 (rendersRow data) rows texts ->
  forall (i : nat) (markdown : string),
    Arr.forEach (processRow (processNode data)) i rows markdown
    = Ok (markdown ++ linesFrom i texts).
Proof.
  induction 1 as [|row cells rows texts Hrow _ IH]; intros i markdown; simpl.
  - now rewrite append_empty_r.
  - rewrite (processRow_renders _ _ _ _ Hrow). simpl. rewrite IH.
    now string_norm.
Qed.

Lemma linesFrom_later (i : nat) (texts : list (list string)) :
  linesFrom (S i) texts = String.concat "" (map TableSpec.rowLine texts).
Proof.
  revert i. induction texts as [|cells rest IH]; intros i.
  - reflexivity.
  - cbn [linesFrom map Nat.eqb]. rewrite IH. simpl.
    destruct (map TableSpec.rowLine rest); simpl;
      [now rewrite append_empty_r | reflexivity].
Qed.

Lemma linesFrom_lines (texts : list (list string)) :
  linesFrom 0 texts = String.concat "" (TableSpec.lines texts).
Proof.
  destruct texts as [|first others]; [reflexivity|].
  cbn [linesFrom TableSpec.lines Nat.eqb]. rewrite linesFrom_later.
  simpl. destruct (map TableSpec.rowLine others); simpl;
    [now rewrite append_empty_r | reflexivity].
Qed.

Lemma processTable_lines (table : Node.t) rows texts :
  Node.content table = Some rows ->
  Forall2 (rendersRow data) rows texts ->
  processTable data table = Ok (String.concat "" (TableSpec.lines texts)).
Proof.
  intros Hc Hrows. unfold processTable, processTable_with. rewrite Hc.
  rewrite (forEach_rows _ _ Hrows). now rewrite linesFrom_lines.
Qed.

End TableProofs.

Section LineFeeds.

Import TableSpec.

Lemma list_sum_step (x : nat) (l : list nat) : list_sum (x :: l) = x + list_sum l.
Proof. reflexivity. Qed.

Lemma lineFeeds_app (a b : string) :
  lineFeeds (a ++ b) = lineFeeds a + lineFeeds b.
Proof.
  induction a as [|c a IH]; simpl; [reflexivity|]. rewrite IH. lia.
Qed.

Lemma lineFeeds_concat (l : list string) :
  lineFeeds (String.concat "" l) = list_sum (map lineFeeds l).
Proof.
  induction l as [|x l IH]; [reflexivity|].
  destruct l as [|y l]; [simpl; lia|].
  change (String.concat "" (x :: y :: l)) with (x ++ "" ++ String.concat "" (y :: l)).
  cbn [append]. rewrite lineFeeds_app, IH. reflexivity.
Qed.

Lemma lineFeeds_join (l : list string) :
  lineFeeds (Arr.joinStrings " | " l) = list_sum (map lineFeeds l).
Proof.
  induction l as [|x l IH]; [reflexivity|].
  destruct l as [|y l]; [simpl; lia|].
  change (Arr.joinStrings " | " (x :: y :: l))
    with (x ++ " | " ++ Arr.joinStrings " | " (y :: l)).
  rewrite !lineFeeds_app, IH. reflexivity.
Qed.

Lemma lineFeeds_rowLine (cells : list string) :
  lineFeeds (rowLine cells) = S (list_sum (map lineFeeds cells)).
Proof.
  unfold rowLine. rewrite !lineFeeds_app, lineFeeds_join. simpl. lia.
Qed.

Lemma lineFeeds_separatorLine (columns : nat) :
  lineFeeds (separatorLine columns) = 1.
Proof.
  unfold separatorLine. rewrite !lineFeeds_app, lineFeeds_join.
  assert (H : list_sum (map lineFeeds (repeat "---" columns)) = 0)
    by (induction columns; simpl; auto).
  rewrite H. reflexivity.
Qed.

(** The line feeds of a table: one per row, one for the separator, and
    those that the cell texts bring along. *)
Lemma lineFeeds_lines (first : list string) (others : list (list string)) :
  lineFeeds (String.concat "" (lines (first :: others)))
  = S (List.length (first :: others))
    + list_sum (map (fun cells => list_sum (map lineFeeds cells)) (first :: others)).
Proof.
  rewrite lineFeeds_concat. cbn [lines map List.length].
  rewrite !list_sum_step, lineFeeds_rowLine, lineFeeds_separatorLine.
  assert (H : list_sum (map lineFeeds (map rowLine others))
              = List.length others
                + list_sum (map (fun cells => list_sum (map lineFeeds cells)) others)).
  { induction others as [|r others IH]; [reflexivity|].
    cbn [map List.length]. rewrite !list_sum_step, lineFeeds_rowLine, IH. lia. }
  rewrite H. lia.
Qed.

Lemma lineFeeds_none (texts : list (list string)) :
  Forall (Forall (fun text => lineFeeds text = 0)) texts ->
  list_sum (map (fun cells => list_sum (map lineFeeds cells)) texts) = 0.
Proof.
  induction 1 as [|cells l Hcell _ IH]; [reflexivity|].
  cbn [map]. rewrite list_sum_step, IH.
  assert (H0 : list_sum (map lineFeeds cells) = 0).
  { induction Hcell as [|t ts Ht _ IHt]; [reflexivity|].
    cbn [map]. rewrite list_sum_step. lia. }
  lia.
Qed.

End LineFeeds.

(** The number of line feeds in the text of a table whose cells render:
    the number of rows plus one, when no cell text has a line feed of its
    own. *)
Lemma table_line_feeds (data : snapshot) (table : Node.t) rows first others :
  Node.content table = Some rows ->
  Forall2 (rendersRow data) rows (first :: others) ->
  Forall (Forall (fun text => TableSpec.lineFeeds text = 0)) (first :: others) ->
  exists out,
    processTable data table = Ok out
    /\ TableSpec.lineFeeds out = S (List.length rows).
Proof.
  intros Hc Hrows Hcells. eexists. split.
  - exact (processTable_lines data table rows _ Hc Hrows).
  - rewrite lineFeeds_lines, (Forall2_length Hrows).
    rewrite (lineFeeds_none _ Hcells). lia.
Qed.

Ltac renders_cells :=
  repeat first
    [ apply Forall2_nil
    | apply Forall2_cons; [eapply rendersCell_intro; reflexivity|] ].

Ltac renders_rows :=
  repeat first
    [ apply Forall2_nil
    | apply Forall2_cons; [eapply RendersRow; [reflexivity | renders_cells]|] ].

Section TableLines.

Import TableSpec.

Lemma isWhiteSpace_codes (c : ascii) : Str.isWhiteSpace c = whiteSpace c.
Proof. destruct c as [[] [] [] [] [] [] [] []]; reflexivity. Qed.

Lemma allWhiteSpace_every (s : string) : allWhiteSpace s = every whiteSpace s.
Proof.
  induction s as [|c r IH]; [reflexivity|].
  cbn [allWhiteSpace every]. now rewrite IH, isWhiteSpace_codes.
Qed.

Lemma endsWithSpace_lastIs (s : string) : endsWithSpace s = lastIs whiteSpace s.
Proof.
  induction s as [|c r IH]; [reflexivity|].
  destruct r as [|d t]; [apply isWhiteSpace_codes | exact IH].
Qed.

(** [trim] takes off the white space at both ends, all of it and nothing
    else, white space being the seven code units named by their codes. *)
Lemma trim_stripped (s : string) : stripped s (Str.trim s).
Proof.
  destruct (trim_trimmed s) as (Hs & He & l & r & Heq & Hl & Hr).
  split; [|split].
  - destruct (Str.trim s) as [|c t]; [reflexivity|].
    cbn [firstIs]. rewrite <- isWhiteSpace_codes. exact Hs.
  - now rewrite <- endsWithSpace_lastIs.
  - exists l, r. rewrite <- !allWhiteSpace_every. auto.
Qed.

Lemma linesOf_line (l rest : string) :
  oneLine l -> linesOf (l ++ nl ++ rest) = l :: linesOf rest.
Proof.
  unfold oneLine. induction l as [|c l IH]; intros H.
  - reflexivity.
  - cbn [lineFeeds] in H. cbn [append linesOf].
    destruct (Ascii.eqb c (ascii_of_nat 10)); [discriminate H|].
    now rewrite (IH H).
Qed.

Lemma linesOf_concat (ls : list string) :
  Forall oneLine ls ->
  linesOf (String.concat "" (map (fun t => t ++ nl) ls)) = ls.
Proof.
  induction 1 as [|t ls Ht _ IH]; [reflexivity|].
  destruct ls as [|u ls].
  - cbn [map String.concat].
    rewrite <- (append_empty_r (t ++ nl)), append_assoc.
    now rewrite (linesOf_line t "" Ht).
  - change (String.concat "" (map (fun t => t ++ nl) (t :: u :: ls)))
      with ((t ++ nl) ++ "" ++ String.concat "" (map (fun t => t ++ nl) (u :: ls))).
    cbn [append]. rewrite append_assoc, (linesOf_line t _ Ht). now rewrite IH.
Qed.

Lemma rowLine_rowText (cells : list string) : rowLine cells = rowText cells ++ nl.
Proof. unfold rowLine, rowText. now string_norm. Qed.

Lemma separatorLine_separatorText (columns : nat) :
  separatorLine columns = separatorText columns ++ nl.
Proof. unfold separatorLine, separatorText. now string_norm. Qed.

Lemma rowText_oneLine (cells : list string) :
  Forall oneLine cells -> oneLine (rowText cells).
Proof.
  intros H. unfold oneLine, rowText. rewrite !lineFeeds_app, lineFeeds_join.
  assert (E : list_sum (map lineFeeds cells) = 0).
  { induction H as [|t ts Ht _ IH]; [reflexivity|].
    cbn [map]. rewrite list_sum_step, IH, Ht. reflexivity. }
  rewrite E. reflexivity.
Qed.

Lemma separatorText_oneLine (columns : nat) : oneLine (separatorText columns).
Proof.
  apply (rowText_oneLine (repeat "---" columns)).
  induction columns; constructor; auto. reflexivity.
Qed.

(** The text of a table whose cell texts have no line feed, line by line. *)
Lemma linesOf_table (first : list string) (others : list (list string)) :
  Forall (Forall oneLine) (first :: others) ->
  linesOf (String.concat ""
             (rowLine first :: separatorLine (List.length first)
              :: map rowLine others))
  = rowText first :: separatorText (List.length first) :: map rowText others.
Proof.
  intros H. inversion H as [|x l Hfirst Hothers]; subst.
  assert (E : (rowLine first :: separatorLine (List.length first)
               :: map rowLine others)
              = map (fun t => t ++ nl)
                    (rowText first :: separatorText (List.length first)
                     :: map rowText others)).
  { cbn [map]. rewrite rowLine_rowText, separatorLine_separatorText.
    do 2 f_equal. rewrite map_map. apply map_ext. intros cells.
    apply rowLine_rowText. }
  rewrite E. apply linesOf_concat.
  constructor; [now apply rowText_oneLine|].
  constructor; [apply separatorText_oneLine|].
  clear - Hothers. induction Hothers; constructor; auto using rowText_oneLine.
Qed.

End TableLines.

(** C3, as stated, fails for a cell whose text has a line feed in it: the
    white space is trimmed at the two ends of a cell only, so the row of
    that cell takes two lines.  This table of two rows and three columns
    renders as four lines, and its second line is not the separator. *)
Lemma cell_with_line_feed_gives_four_lines :
  exists out,
    processTable noData Sample.tornTable = Ok out
    /\ TableSpec.linesOf out
       = ["| a"; "b | B | C |"; "| --- | --- | --- |"; "| D | E | F |"]
    /\ List.length (TableSpec.linesOf out) = 4
    /\ nth_error (TableSpec.linesOf out) 1 <> Some "| --- | --- | --- |".
Proof. eexists. repeat split; try reflexivity. discriminate. Qed.

(** C3, amended.  A table with at least one row, all of whose cells
    render, renders as the text of one pipe-delimited row per row in row
    order, each cell being its children's renderings concatenated and
    trimmed of the white space around them, with exactly one separator of
    as many [---] as the first row has cells, right behind the first row.
    When no cell text has a line feed in it, these are the lines of the
    output: one per row, and the separator as the second and nowhere else;
    a table of two rows and three columns then gives exactly three lines,
    the second one [| --- | --- | --- |]. *)
Theorem table_rows_and_one_separator :
  forall (data : snapshot) (table : Node.t) rows first others,
    Node.content table = Some rows ->
    Forall2 (rendersRow data) rows (first :: others) ->
    exists out,
      processTable data table = Ok out
      /\ out = String.concat ""
                 (TableSpec.rowLine first
                  :: TableSpec.separatorLine (List.length first)
                  :: map TableSpec.rowLine others)
      /\ (Forall (Forall TableSpec.oneLine) (first :: others) ->
          TableSpec.linesOf out
          = TableSpec.rowText first
            :: TableSpec.separatorText (List.length first)
            :: map TableSpec.rowText others
          /\ List.length (TableSpec.linesOf out) = S (List.length rows)
          /\ forall a b c d e f,
               first = [a; b; c] -> others = [[d; e; f]] ->
               TableSpec.linesOf out
               = ["| " ++ a ++ " | " ++ b ++ " | " ++ c ++ " |";
                  "| --- | --- | --- |";
                  "| " ++ d ++ " | " ++ e ++ " | " ++ f ++ " |"])
      /\ (forall children : list jsval,
            TableSpec.stripped (Arr.join "" children) (TableSpec.cellText children)).
Proof.
  intros data table rows first others Hc Hrows.
  eexists. split; [exact (processTable_lines data table rows _ Hc Hrows)|].
  split; [reflexivity|]. split.
  - intros Hlines. cbn [TableSpec.lines].
    pose proof (linesOf_table first others Hlines) as E.
    split; [exact E|]. split.
    + rewrite E. cbn [List.length]. rewrite length_map.
      rewrite (Forall2_length Hrows). reflexivity.
    + intros a b c d e f -> ->. rewrite E.
      unfold TableSpec.rowText, TableSpec.separatorText.
      cbn [Arr.joinStrings repeat List.length map]. now string_norm.
  - intros children. apply trim_stripped.
Qed.

Lemma sample_table_renders :
  Forall2 (rendersRow noData)
          [Sample.row ["Name"; " Unit "; "Price"]; Sample.row ["Tea"; "cup"; "2"]]
          [["Name"; "Unit"; "Price"]; ["Tea"; "cup"; "2"]].
Proof. renders_rows. Qed.

Lemma table_rows_and_one_separator_witness :
  Forall (Forall TableSpec.oneLine) [["Name"; "Unit"; "Price"]; ["Tea"; "cup"; "2"]]
  /\ exists out,
      processTable noData Sample.table = Ok out
      /\ TableSpec.linesOf out
         = ["| " ++ "Name" ++ " | " ++ "Unit" ++ " | " ++ "Price" ++ " |";
            "| --- | --- | --- |";
            "| " ++ "Tea" ++ " | " ++ "cup" ++ " | " ++ "2" ++ " |"].
Proof.
  assert (H : Forall (Forall TableSpec.oneLine)
                     [["Name"; "Unit"; "Price"]; ["Tea"; "cup"; "2"]])
    by (repeat first [ apply Forall_nil
                     | apply Forall_cons; [first [reflexivity | idtac]|] ];
        repeat first [ apply Forall_nil | apply Forall_cons; [reflexivity|] ]).
  split; [exact H|].
  destruct (table_rows_and_one_separator noData Sample.table _ _ _
              eq_refl sample_table_renders)
    as (out & Hout & _ & Hlines & _).
  exists out. split; [exact Hout|].
  exact (proj2 (proj2 (Hlines H)) "Name" "Unit" "Price" "Tea" "cup" "2"
           eq_refl eq_refl).
Defined.

(* ===================================================================== *)
(** ** Embedded assets *)
(* ===================================================================== *)

Lemma strict_eq_true (a b : option string) : strict_eq a b = true <-> a = b.
Proof.
  destruct a as [x|], b as [y|]; simpl; try (split; [discriminate | congruence]).
  - rewrite String.eqb_eq. split; congruence.
  - split; reflexivity.
Qed.

Lemma strict_eq_false (a b : option string) : strict_eq a b = false <-> a <> b.
Proof.
  rewrite <- strict_eq_true. destruct (strict_eq a b); split; congruence.
Qed.

Lemma startsWith_slashes (url : string) :
  (if Str.startsWith url "//" then "https:" ++ url else url)
  = AssetSpec.explicitUrl url.
Proof.
  unfold Str.startsWith, AssetSpec.explicitUrl.
  destruct url as [|a [|b r]]; cbn [String.prefix].
  - reflexivity.
  - destruct (ascii_dec "/" a); reflexivity.
  - destruct (ascii_dec "/" a) as [<-|Ha].
    + destruct (ascii_dec "/" b) as [<-|Hb].
      * destruct r; reflexivity.
      * rewrite Ascii.eqb_refl. cbn [andb].
        destruct (Ascii.eqb_spec b "/"); [congruence | reflexivity].
    + destruct (Ascii.eqb_spec a "/"); [congruence | reflexivity].
Qed.

Section AssetProofs.

Variable data : snapshot.

Lemma findM_skip (id : option string) (before rest : list Asset.t) :
  Forall (hasOtherId id) before ->
  Arr.findM
    (fun a => read s := Asset.sys a for "id" ;; Ok (strict_eq (Sys.id s) id))
    (before ++ rest)%list
  = Arr.findM
      (fun a => read s := Asset.sys a for "id" ;; Ok (strict_eq (Sys.id s) id))
      rest.
Proof.
  induction 1 as [|a before (s & Hs & Hne) _ IH]; simpl.
  - reflexivity.
  - rewrite Hs. simpl. rewrite (proj2 (strict_eq_false _ _) Hne). exact IH.
Qed.

Lemma findAsset_missing (id : option string) :
  assetMissing data id -> findAsset data id = Ok None.
Proof.
  intros H. unfold findAsset.
  rewrite <- (app_nil_r (assets data)). rewrite findM_skip by exact H.
  reflexivity.
Qed.

Lemma findAsset_resolves (id : option string) (asset : Asset.t) :
  assetResolves data id asset -> findAsset data id = Ok (Some asset).
Proof.
  intros (before & after & Heq & Hbefore & s & Hs & Hid). unfold findAsset.
  rewrite Heq, findM_skip by exact Hbefore. simpl. rewrite Hs. simpl.
  now rewrite (proj2 (strict_eq_true _ _) Hid).
Qed.

Lemma processObject_asset (n : Node.t) :
  Node.nodeType n = Some "embedded-asset-block" ->
  processObject data n = processAsset data n.
Proof.
  intros H. destruct n as [ty c d v m]. simpl in H. subst ty. reflexivity.
Qed.

Lemma processAsset_found content uri id value marks asset fs url :
  assetResolves data id asset ->
  Asset.fields asset = Some fs ->
  Asset.file fs = Some (Localized.mk (Some (Asset.mkFile (Some url)))) ->
  processNode data (Some (assetBlock content uri id value marks))
  = Ok (JString (AssetSpec.image (toString (fieldOr (Asset.title fs) "")) url)).
Proof.
  intros Hres Hfs Hfile. unfold processNode.
  rewrite processObject_asset by reflexivity.
  unfold processAsset, assetBlock; simpl.
  rewrite (findAsset_resolves _ _ Hres). simpl. rewrite Hfs, Hfile. simpl.
  rewrite startsWith_slashes. reflexivity.
Qed.

End AssetProofs.

(** C4.  An embedded-asset block renders as the empty string, without
    throwing, when no asset of the snapshot has the identifier it refers
    to, and when the asset it resolves to has no file descriptor.  When
    the asset is found and has a file descriptor, the block renders as the
    image tag between blank lines, with the empty string for the title
    when the asset has no title field. *)
Theorem asset_block_missing_or_image :
  forall (data : snapshot) content uri id value marks,
    let render := processNode data (Some (assetBlock content uri id value marks)) in
    (assetMissing data id -> render = Ok (JString ""))
    /\ (forall asset fs,
          assetResolves data id asset ->
          Asset.fields asset = Some fs ->
          Asset.file fs = None ->
          render = Ok (JString ""))
    /\ (forall asset fs url,
          assetResolves data id asset ->
          Asset.fields asset = Some fs ->
          Asset.file fs = Some (Localized.mk (Some (Asset.mkFile (Some url)))) ->
          (Asset.title fs = None ->
           render = Ok (JString (nl ++ nl ++ "![" ++ "" ++ "]("
                                 ++ AssetSpec.explicitUrl url ++ ")" ++ nl ++ nl)))
          /\ (forall title,
                Asset.title fs = Some (Localized.mk (Some title)) ->
                render = Ok (JString (nl ++ nl ++ "![" ++ title ++ "]("
                                      ++ AssetSpec.explicitUrl url ++ ")" ++ nl ++ nl)))).
Proof.
  intros data content uri id value marks render. unfold render.
  split; [|split].
  - intros Hmiss. unfold processNode.
    rewrite processObject_asset by reflexivity.
    unfold processAsset, assetBlock; simpl.
    now rewrite (findAsset_missing _ _ Hmiss).
  - intros asset fs Hres Hfs Hfile. unfold processNode.
    rewrite processObject_asset by reflexivity.
    unfold processAsset, assetBlock; simpl.
    rewrite (findAsset_resolves _ _ _ Hres). simpl. now rewrite Hfs, Hfile.
  - intros asset fs url Hres Hfs Hfile.
    rewrite (processAsset_found data _ _ _ _ _ _ _ _ Hres Hfs Hfile).
    split; [intros Ht | intros title Ht]; rewrite Ht; reflexivity.
Qed.

(** C8.  For an embedded-asset block that resolves to an asset with a file
    descriptor, a URL that starts with two slashes is emitted with
    [https:] in front of it, and any other URL is emitted as it is.  The
    URL [//images.example.com/a.png] is emitted as
    [https://images.example.com/a.png]. *)
Theorem asset_url_protocol_relative :
  forall (data : snapshot) content uri id value marks asset fs url,
    assetResolves data id asset ->
    Asset.fields asset = Some fs ->
    Asset.file fs = Some (Localized.mk (Some (Asset.mkFile (Some url)))) ->
    let render := processNode data (Some (assetBlock content uri id value marks)) in
    let tag (emitted : string) :=
      Ok (JString (nl ++ nl ++ "![" ++ toString (fieldOr (Asset.title fs) "")
                   ++ "](" ++ emitted ++ ")" ++ nl ++ nl)) in
    (forall rest, url = "//" ++ rest -> render = tag ("https:" ++ url))
    /\ ((forall rest, url <> "//" ++ rest) -> render = tag url)
    /\ (url = "//images.example.com/a.png" ->
        render = tag "https://images.example.com/a.png").
Proof.
  intros data content uri id value marks asset fs url Hres Hfs Hfile render tag.
  unfold render, tag.
  rewrite (processAsset_found data _ _ _ _ _ _ _ _ Hres Hfs Hfile).
  unfold AssetSpec.image. split; [|split].
  - intros rest ->. reflexivity.
  - intros Hno. destruct url as [|a [|b r]]; try reflexivity.
    unfold AssetSpec.explicitUrl.
    destruct (Ascii.eqb_spec a "/") as [->|Ha]; [|reflexivity].
    destruct (Ascii.eqb_spec b "/") as [->|Hb]; [|reflexivity].
    now elim (Hno r).
  - intros ->. reflexivity.
Qed.

Ltac other_id := eexists; split; [reflexivity | discriminate].

Ltac other_ids :=
  repeat first [ apply Forall_nil | apply Forall_cons; [other_id|] ].

Lemma sample_asset_missing : assetMissing Sample.export (Some "zz").
Proof. other_ids. Qed.

Lemma sample_draft_resolves : assetResolves Sample.export (Some "a0") Sample.draft.
Proof.
  exists [], [Sample.photo; Sample.logo].
  split; [reflexivity|]. split; [other_ids|]. eexists. split; reflexivity.
Qed.

Lemma sample_photo_resolves : assetResolves Sample.export (Some "a1") Sample.photo.
Proof.
  exists [Sample.draft], [Sample.logo].
  split; [reflexivity|]. split; [other_ids|].
  eexists. split; reflexivity.
Qed.

Lemma sample_logo_resolves : assetResolves Sample.export (Some "a2") Sample.logo.
Proof.
  exists [Sample.draft; Sample.photo], [].
  split; [reflexivity|]. split; [other_ids|].
  eexists. split; reflexivity.
Qed.

Lemma asset_block_missing_or_image_witness :
  processNode Sample.export (Some (assetBlock None None (Some "zz") None None))
  = Ok (JString "")
  /\ processNode Sample.export (Some (assetBlock None None (Some "a0") None None))
     = Ok (JString "")
  /\ processNode Sample.export (Some (assetBlock None None (Some "a1") None None))
     = Ok (JString (nl ++ nl ++ "![" ++ "" ++ "]("
                    ++ "https://images.example.com/a.png" ++ ")" ++ nl ++ nl))
  /\ processNode Sample.export (Some (assetBlock None None (Some "a2") None None))
     = Ok (JString (nl ++ nl ++ "![" ++ "Logo" ++ "]("
                    ++ "https://cdn.example.com/logo.svg" ++ ")" ++ nl ++ nl)).
Proof.
  split; [|split; [|split]].
  - apply (proj1 (asset_block_missing_or_image
                    Sample.export None None (Some "zz") None None)).
    exact sample_asset_missing.
  - apply (proj1 (proj2 (asset_block_missing_or_image
                           Sample.export None None (Some "a0") None None))
             Sample.draft _ sample_draft_resolves eq_refl eq_refl).
  - apply (proj1 (proj2 (proj2 (asset_block_missing_or_image
                                  Sample.export None None (Some "a1") None None))
                    Sample.photo _ "//images.example.com/a.png"
                    sample_photo_resolves eq_refl eq_refl)).
    reflexivity.
  - apply (proj2 (proj2 (proj2 (asset_block_missing_or_image
                                  Sample.export None None (Some "a2") None None))
                    Sample.logo _ "https://cdn.example.com/logo.svg"
                    sample_logo_resolves eq_refl eq_refl)
             "Logo").
    reflexivity.
Defined.

Lemma asset_url_protocol_relative_witness :
  processNode Sample.export (Some (assetBlock None None (Some "a1") None None))
  = Ok (JString (nl ++ nl ++ "![" ++ "" ++ "]("
                 ++ "https://images.example.com/a.png" ++ ")" ++ nl ++ nl))
  /\ processNode Sample.export (Some (assetBlock None None (Some "a2") None None))
     = Ok (JString (nl ++ nl ++ "![" ++ "Logo" ++ "]("
                    ++ "https://cdn.example.com/logo.svg" ++ ")" ++ nl ++ nl)).
Proof.
  split.
  - apply (proj2 (proj2 (asset_url_protocol_relative
                           Sample.export None None (Some "a1") None None
                           Sample.photo _ "//images.example.com/a.png"
                           sample_photo_resolves eq_refl eq_refl))).
    reflexivity.
  - apply (proj1 (proj2 (asset_url_protocol_relative
                           Sample.export None None (Some "a2") None None
                           Sample.logo _ "https://cdn.example.com/logo.svg"
                           sample_logo_resolves eq_refl eq_refl))).
    intros rest H. discriminate H.
Defined.


(* ===================================================================== *)
(** ** File names *)
(* ===================================================================== *)

(** The runs are a decomposition of the string. *)
Lemma runs_cat (p : ascii -> bool) (s : string) :
  SlugSpec.cat (map snd (SlugSpec.runs p s)) = s.
Proof.
  induction s as [|c r IH]; simpl; [reflexivity|].
  destruct (SlugSpec.runs p r) as [|[b run] rest]; simpl in *.
  - now rewrite <- IH.
  - destruct (Bool.eqb b (p c)); simpl; now rewrite IH.
Qed.

(** Each run is one on which [p] has the value recorded with it, and no
    run is empty. *)
Lemma runs_homogeneous (p : ascii -> bool) (s : string) :
  Forall (fun r => snd r <> "" /\
                   Forall (fun c => p c = fst r) (list_ascii_of_string (snd r)))
         (SlugSpec.runs p s).
Proof.
  induction s as [|c r IH]; simpl; [constructor|].
  destruct (SlugSpec.runs p r) as [|[b run] rest].
  - repeat constructor. discriminate.
  - inversion IH as [|x l [Hne Hall] Hrest]; subst. simpl in *.
    destruct (Bool.eqb b (p c)) eqn:E.
    + apply Bool.eqb_prop in E. constructor; [|assumption]. simpl.
      split; [discriminate | constructor; auto].
    + repeat constructor; auto. discriminate.
Qed.

(** The runs are maximal. *)
Lemma runs_maximal (p : ascii -> bool) (s : string) :
  alternating (SlugSpec.runs p s).
Proof.
  induction s as [|c r IH]; simpl; [exact I|].
  destruct (SlugSpec.runs p r) as [|[b run] rest]; [exact I|].
  destruct (Bool.eqb b (p c)) eqn:E.
  - destruct rest as [|x rest]; [exact I|]. exact IH.
  - split; [|exact IH]. simpl. intros H. rewrite H, Bool.eqb_reflx in E.
    discriminate.
Qed.

Section SlugProofs.

Lemma runs_ext (p q : ascii -> bool) (s : string) :
  Forall (fun c => p c = q c) (list_ascii_of_string s) ->
  SlugSpec.runs p s = SlugSpec.runs q s.
Proof.
  induction s as [|c r IH]; simpl; intros H; [reflexivity|].
  inversion H as [|x l Hc Hr]; subst. rewrite (IH Hr), Hc. reflexivity.
Qed.

(** After lower-casing, the class of the pattern and the letters and
    digits are the same characters. *)
Lemma lowerChar_class (c : ascii) :
  Str.isAlnum (Str.lowerChar c) = SlugSpec.alphanumeric (Str.lowerChar c).
Proof. destruct c as [[] [] [] [] [] [] [] []]; reflexivity. Qed.

Lemma toLowerCase_class (s : string) :
  Forall (fun c => Str.isAlnum c = SlugSpec.alphanumeric c)
         (list_ascii_of_string (Str.toLowerCase s)).
Proof.
  induction s as [|c r IH]; simpl; constructor; auto using lowerChar_class.
Qed.

Lemma replaceRuns_runs (s : string) :
  Str.replaceRuns s = SlugSpec.cat (map SlugSpec.hyphenOr (SlugSpec.runs Str.isAlnum s))
  /\ Str.skipRun s = afterRun (SlugSpec.runs Str.isAlnum s).
Proof.
  induction s as [|c r [IHr IHs]]; [split; reflexivity|].
  cbn [Str.replaceRuns Str.skipRun SlugSpec.runs].
  destruct (Str.isAlnum c) eqn:Hc.
  - rewrite IHr.
    destruct (SlugSpec.runs Str.isAlnum r) as [|[[] run] rest];
      split; reflexivity.
  - rewrite IHs.
    destruct (SlugSpec.runs Str.isAlnum r) as [|[[] run] rest];
      split; reflexivity.
Qed.

Lemma alnum_not_hyphen (c : ascii) : Str.isAlnum c = true -> Str.isHyphen c = false.
Proof. destruct c as [[] [] [] [] [] [] [] []]; cbv; congruence. Qed.

Lemma replaceRuns_separated (s : string) :
  separated (Str.replaceRuns s)
  /\ separated (Str.skipRun s) /\ startsWithHyphen (Str.skipRun s) = false.
Proof.
  induction s as [|c r (IHr & IHs & IHh)]; [repeat split|].
  cbn [Str.replaceRuns Str.skipRun]. destruct (Str.isAlnum c) eqn:Hc.
  - assert (Hsep : separated (String c (Str.replaceRuns r))).
    { simpl. destruct (Str.replaceRuns r); [exact I|].
      split; [|exact IHr]. now rewrite (alnum_not_hyphen c Hc). }
    repeat split; auto. simpl. now apply alnum_not_hyphen.
  - repeat split; auto. simpl.
    destruct (Str.skipRun r) as [|d t]; [exact I|]. split; [|exact IHs].
    simpl in IHh. rewrite IHh. reflexivity.
Qed.

Lemma stripTrailing_empty (c : ascii) (r : string) :
  SlugSpec.stripTrailing (String c r) = "" ->
  Str.isHyphen c = true /\ SlugSpec.stripTrailing r = "".
Proof.
  simpl. destruct (SlugSpec.stripTrailing r); [|discriminate].
  destruct (Str.isHyphen c); [auto | discriminate].
Qed.

Lemma dropFinalHyphen_stripTrailing (s : string) :
  separated s -> Str.dropFinalHyphen s = SlugSpec.stripTrailing s.
Proof.
  induction s as [|c r IH]; [reflexivity|]. intros Hsep.
  destruct r as [|d t]; [reflexivity|].
  destruct Hsep as [Hcd Hsep]. specialize (IH Hsep).
  change (Str.dropFinalHyphen (String c (String d t)))
    with (String c (Str.dropFinalHyphen (String d t))).
  rewrite IH.
  change (SlugSpec.stripTrailing (String c (String d t)))
    with (match SlugSpec.stripTrailing (String d t) with
          | EmptyString => if Str.isHyphen c then EmptyString else String c EmptyString
          | String a s => String c (String a s)
          end).
  destruct (SlugSpec.stripTrailing (String d t)) eqn:E; [|reflexivity].
  apply stripTrailing_empty in E. destruct E as [Hd _].
  rewrite Hd, Bool.andb_true_r in Hcd. now rewrite Hcd.
Qed.

Lemma separated_tail (c : ascii) (r : string) :
  separated (String c r) -> separated r.
Proof. destruct r; simpl; tauto. Qed.

Lemma stripEdgeHyphens_strip (s : string) :
  separated s ->
  Str.stripEdgeHyphens s = SlugSpec.stripTrailing (SlugSpec.stripLeading s).
Proof.
  intros Hsep. destruct s as [|c r]; [reflexivity|].
  unfold Str.stripEdgeHyphens. cbn [SlugSpec.stripLeading].
  destruct (Str.isHyphen c) eqn:Hc.
  - assert (Hr : SlugSpec.stripLeading r = r).
    { destruct r as [|d t]; [reflexivity|]. simpl in Hsep.
      destruct Hsep as [Hcd _]. rewrite Hc in Hcd. simpl in Hcd.
      simpl. now rewrite Hcd. }
    rewrite Hr. apply dropFinalHyphen_stripTrailing.
    now apply separated_tail in Hsep.
  - now apply dropFinalHyphen_stripTrailing.
Qed.

(** The two replacements of the source compute the file name the
    specification describes. *)
Lemma makeFilename_spec (title : string) :
  makeFilename (JString title) = Ok (SlugSpec.filename title).
Proof.
  unfold makeFilename, SlugSpec.filename, SlugSpec.hyphenate. do 2 f_equal.
  rewrite stripEdgeHyphens_strip by apply replaceRuns_separated.
  rewrite (proj1 (replaceRuns_runs _)).
  now rewrite (runs_ext _ _ _ (toLowerCase_class title)).
Qed.

Lemma symbol_lower (c : ascii) :
  isSymbol c = true -> Str.isAlnum (Str.lowerChar c) = false.
Proof. destruct c as [[] [] [] [] [] [] [] []]; cbv; congruence. Qed.

Lemma symbols_replaceRuns (s : string) :
  Forall (fun c => isSymbol c = true) (list_ascii_of_string s) ->
  Str.skipRun (Str.toLowerCase s) = ""
  /\ (Str.replaceRuns (Str.toLowerCase s) = ""
      \/ Str.replaceRuns (Str.toLowerCase s) = "-").
Proof.
  induction s as [|c r IH]; simpl; intros H; [auto|].
  inversion H as [|x l Hc Hr]; subst. rewrite (symbol_lower c Hc).
  destruct (IH Hr) as [Hs _]. rewrite Hs. auto.
Qed.

Lemma makeFilename_symbols (title : string) :
  Forall (fun c => isSymbol c = true) (list_ascii_of_string title) ->
  makeFilename (JString title) = Ok ".mdx".
Proof.
  intros H. unfold makeFilename.
  destruct (symbols_replaceRuns title H) as [_ [-> | ->]]; reflexivity.
Qed.

End SlugProofs.

(** C7.  The file name of a page is its title in lower case, with every
    maximal run of characters other than letters and digits replaced by a
    single hyphen, the hyphens at both ends stripped and [.mdx] added; it
    is the name under which an assembled page is filed.  The title
    [Hello, World!  2024] gives [hello-world-2024.mdx], and a title made
    of symbols only gives the bare extension [.mdx]. *)
Theorem filename_is_slug_of_title :
  (forall title : string,
      makeFilename (JString title) = Ok (SlugSpec.filename title))
  /\ (forall (data : snapshot) (page : Entry.t) (doc : document),
         assemblePage data page = Ok doc ->
         exists title,
           doc_title doc = JString title
           /\ filename doc = SlugSpec.filename title)
  /\ makeFilename (JString "Hello, World!  2024") = Ok "hello-world-2024.mdx"
  /\ (forall title : string,
         Forall (fun c => isSymbol c = true) (list_ascii_of_string title) ->
         makeFilename (JString title) = Ok ".mdx").
Proof.
  split; [exact makeFilename_spec|]. split; [|split].
  - intros data page doc. unfold assemblePage.
    destruct (Entry.fields page) as [f|]; [|discriminate].
    destruct (pageBlocks data f _) as [md|]; [|discriminate]. simpl.
    destruct (fieldOr (Entry.title f) "Untitled") as [|title] eqn:Ht;
      [discriminate|].
    rewrite makeFilename_spec. simpl. intros H. injection H as <-.
    exists title. split; reflexivity.
  - reflexivity.
  - exact makeFilename_symbols.
Qed.

Lemma filename_is_slug_of_title_witness :
  assemblePage Sample.export Sample.intro
  = Ok (mkDocument (JString "Intro") "intro.mdx" Sample.introMarkdown)
  /\ (exists title,
        JString "Intro" = JString title
        /\ "intro.mdx" = SlugSpec.filename title)
  /\ Forall (fun c => isSymbol c = true) (list_ascii_of_string "?! - #")
  /\ makeFilename (JString "?! - #") = Ok ".mdx".
Proof.
  assert (Hdoc : assemblePage Sample.export Sample.intro
                 = Ok (mkDocument (JString "Intro") "intro.mdx" Sample.introMarkdown))
    by reflexivity.
  assert (Hsym : Forall (fun c => isSymbol c = true) (list_ascii_of_string "?! - #"))
    by (repeat first [ apply Forall_nil | apply Forall_cons; [reflexivity|] ]).
  split; [exact Hdoc|]. split; [|split; [exact Hsym|]].
  - apply (proj1 (proj2 filename_is_slug_of_title)
             Sample.export Sample.intro _ Hdoc).
  - apply (proj2 (proj2 (proj2 filename_is_slug_of_title)) "?! - #" Hsym).
Defined.


(* ===================================================================== *)
(** ** Pages *)
(* ===================================================================== *)

Section PageProofs.

Variable data : snapshot.

Lemma pageHeader_spec (title : string) (description : jsval) :
  pageHeader (JString title) description
  = PageSpec.frontMatter title (PageSpec.printed description)
    ++ PageSpec.heading title
    ++ PageSpec.paragraph (PageSpec.printed description).
Proof.
  unfold pageHeader, PageSpec.frontMatter, PageSpec.heading, PageSpec.paragraph.
  destruct description as [|[|c d]]; cbn [truthy PageSpec.printed toString];
    now string_norm.
Qed.

(** A reference callback only appends to the page. *)
Lemma processRef_append (ref : Entry.ref) (markdown : string) :
  processRef data ref markdown
  = (body <- processRef data ref "" ;; Ok (markdown ++ body)).
Proof.
  unfold processRef. destruct (Entry.ref_sys ref) as [s|]; [|reflexivity].
  destruct (findEntry data (Sys.id s)) as [block|]; simpl;
    [|now rewrite append_empty_r].
  destruct (Entry.fields block) as [bf|]; simpl; [|now rewrite append_empty_r].
  destruct (truthy (fieldAnd (Entry.title bf)));
    (destruct (Entry.content bf) as [c|]; simpl; [|now string_norm]);
    (destruct (Localized.en_US c) as [rich|]; simpl; [|now string_norm]);
    (destruct (richTextToMarkdown data rich); simpl; [|reflexivity]);
    now string_norm.
Qed.

Lemma forEach_refs_append (refs : list Entry.ref) :
  forall (i : nat) (markdown : string),
    Arr.forEach (fun _ => processRef data) i refs markdown
    = (body <- Arr.forEach (fun _ => processRef data) i refs "" ;;
       Ok (markdown ++ body)).
Proof.
  induction refs as [|ref refs IH]; intros i markdown; simpl.
  - now rewrite append_empty_r.
  - rewrite (processRef_append ref markdown).
    destruct (processRef data ref "") as [b1|]; simpl; [|reflexivity].
    rewrite (IH (S i) (markdown ++ b1)), (IH (S i) b1).
    destruct (Arr.forEach (fun _ => processRef data) (S i) refs "");
      simpl; [now rewrite append_assoc | reflexivity].
Qed.

Lemma pageBlocks_append (fields : Entry.fields_t) (markdown : string) :
  pageBlocks data fields markdown
  = (body <- pageBlocks data fields "" ;; Ok (markdown ++ body)).
Proof.
  unfold pageBlocks.
  destruct (Entry.content fields) as [c|]; simpl; [|now rewrite append_empty_r].
  destruct (Localized.en_US c) as [[refs|doc]|]; simpl;
    [apply forEach_refs_append | reflexivity | now rewrite append_empty_r].
Qed.

(** A page with fields, a title that is a string and blocks that render is
    assembled: header, then the blocks. *)
Lemma assemblePage_ok (page : Entry.t) (f : Entry.fields_t) (title body : string) :
  Entry.fields page = Some f ->
  fieldOr (Entry.title f) "Untitled" = JString title ->
  pageBlocks data f "" = Ok body ->
  assemblePage data page
  = Ok (mkDocument (JString title) (SlugSpec.filename title)
          (pageHeader (JString title) (fieldOr (Entry.description f) "") ++ body)).
Proof.
  intros Hf Ht Hb. unfold assemblePage. rewrite Hf, Ht.
  rewrite pageBlocks_append, Hb. cbn [bind]. now rewrite makeFilename_spec.
Qed.

Lemma findEntry_missing (id : option string) :
  Forall (fun e => Entry.id e <> id) (entries data) -> findEntry data id = None.
Proof.
  unfold findEntry. induction 1 as [|e l Hne _ IH]; simpl; [reflexivity|].
  now rewrite (proj2 (strict_eq_false _ _) Hne).
Qed.

Lemma forEach_unresolved (refs : list Entry.ref) :
  Forall (unresolved data) refs ->
  forall (i : nat) (markdown : string),
    Arr.forEach (fun _ => processRef data) i refs markdown = Ok markdown.
Proof.
  induction 1 as [|ref refs (s & Hs & Hnone) _ IH]; intros i markdown; simpl.
  - reflexivity.
  - unfold processRef at 1. rewrite Hs, (findEntry_missing _ Hnone). simpl.
    apply IH.
Qed.

End PageProofs.

(** C5.  A page all of whose content references carry identifiers that no
    entry of the snapshot has is assembled without an exception: its
    document is the front matter, the level-1 heading with the title and
    the description paragraph when there is a description to print, and
    nothing else.  The unresolved references add no heading and no text:
    the document is the one of the same page without a content field. *)
Theorem unresolved_references_are_skipped :
  forall (data : snapshot) (page : Entry.t) (f : Entry.fields_t)
         (title : string) (refs : list Entry.ref),
    Entry.fields page = Some f ->
    fieldOr (Entry.title f) "Untitled" = JString title ->
    Entry.content f = Some (Localized.mk (Some (Entry.Refs refs))) ->
    Forall (unresolved data) refs ->
    let description := PageSpec.printed (fieldOr (Entry.description f) "") in
    assemblePage data page
    = Ok (mkDocument (JString title) (SlugSpec.filename title)
            (PageSpec.frontMatter title description
             ++ PageSpec.heading title
             ++ PageSpec.paragraph description))
    /\ assemblePage data page = assemblePage data (withoutContent page f).
Proof.
  intros data page f title refs Hf Ht Hc Hrefs description.
  assert (Hb : pageBlocks data f "" = Ok "").
  { unfold pageBlocks. rewrite Hc. simpl. now apply forEach_unresolved. }
  rewrite (assemblePage_ok data page f title "" Hf Ht Hb).
  rewrite (assemblePage_ok data (withoutContent page f)
             (Entry.mkFields (Entry.title f) (Entry.description f) None)
             title "" eq_refl Ht eq_refl).
  cbn [Entry.description].
  rewrite append_empty_r, pageHeader_spec. split; reflexivity.
Qed.

Lemma sample_orphan_unresolved :
  Forall (unresolved Sample.export) [Sample.refTo "gone"].
Proof.
  apply Forall_cons; [|apply Forall_nil].
  eexists. split; [reflexivity|].
  repeat first [ apply Forall_nil | apply Forall_cons; [discriminate|] ].
Qed.

Lemma unresolved_references_are_skipped_witness :
  Entry.content (Sample.pageFields (localized "Hello, World!  2024") None
                   [Sample.refTo "gone"])
  = Some (Localized.mk (Some (Entry.Refs [Sample.refTo "gone"])))
  /\ assemblePage Sample.export Sample.orphan
     = Ok (mkDocument (JString "Hello, World!  2024") "hello-world-2024.mdx"
             (("---" ++ nl
               ++ "title: " ++ dq ++ "Hello, World!  2024" ++ dq ++ nl
               ++ "---" ++ nl ++ nl)
              ++ ("# " ++ "Hello, World!  2024" ++ nl ++ nl))).
Proof.
  split; [reflexivity|].
  apply (proj1 (unresolved_references_are_skipped
                  Sample.export Sample.orphan _ "Hello, World!  2024"
                  [Sample.refTo "gone"]
                  eq_refl eq_refl eq_refl sample_orphan_unresolved)).
Defined.

(** C9, as stated, fails when the description field is there and holds the
    empty string: the page is assembled, and its document has neither the
    description line nor the description paragraph. *)
Lemma empty_description_is_not_emitted :
  exists doc,
    assemblePage noData (barePage (localized "T") (localized "")) = Ok doc
    /\ markdown doc
       = "---" ++ nl ++ "title: " ++ dq ++ "T" ++ dq ++ nl ++ "---" ++ nl ++ nl
         ++ "# T" ++ nl ++ nl
    /\ String.index 0 "description" (markdown doc) = None.
Proof. eexists. split; [reflexivity|]. split; reflexivity. Qed.

(** C9, amended.  For a page whose description field is there with a value
    that is not the empty string, the front matter has the line
    [description: "<description>"] between the title line and the closing
    [---], and the description paragraph follows the level-1 heading.
    When the value is the empty string, neither the line nor the paragraph
    is emitted. *)
Theorem description_emitted_when_not_empty :
  forall (data : snapshot) (page : Entry.t) (f : Entry.fields_t)
         (title d body : string),
    Entry.fields page = Some f ->
    fieldOr (Entry.title f) "Untitled" = JString title ->
    Entry.description f = Some (Localized.mk (Some d)) ->
    pageBlocks data f "" = Ok body ->
    (d <> "" ->
     assemblePage data page
     = Ok (mkDocument (JString title) (SlugSpec.filename title)
             (("---" ++ nl
               ++ "title: " ++ dq ++ title ++ dq ++ nl
               ++ "description: " ++ dq ++ d ++ dq ++ nl
               ++ "---" ++ nl ++ nl)
              ++ ("# " ++ title ++ nl ++ nl)
              ++ (d ++ nl ++ nl)
              ++ body)))
    /\ (d = "" ->
        assemblePage data page
        = Ok (mkDocument (JString title) (SlugSpec.filename title)
                (("---" ++ nl
                  ++ "title: " ++ dq ++ title ++ dq ++ nl
                  ++ "---" ++ nl ++ nl)
                 ++ ("# " ++ title ++ nl ++ nl)
                 ++ body))).
Proof.
  intros data page f title d body Hf Ht Hd Hb.
  rewrite (assemblePage_ok data page f title body Hf Ht Hb).
  rewrite pageHeader_spec, Hd. cbn [fieldOr Localized.en_US of_option].
  unfold PageSpec.frontMatter, PageSpec.heading, PageSpec.paragraph.
  split; intros Hne.
  - destruct d as [|c d]; [congruence|]. cbn [PageSpec.printed].
    do 2 f_equal. now string_norm.
  - subst d. cbn [PageSpec.printed]. do 2 f_equal. now string_norm.
Qed.

Lemma description_emitted_when_not_empty_witness :
  "Welcome" <> ""
  /\ assemblePage Sample.export Sample.intro
     = Ok (mkDocument (JString "Intro") "intro.mdx"
             (("---" ++ nl
               ++ "title: " ++ dq ++ "Intro" ++ dq ++ nl
               ++ "description: " ++ dq ++ "Welcome" ++ dq ++ nl
               ++ "---" ++ nl ++ nl)
              ++ ("# " ++ "Intro" ++ nl ++ nl)
              ++ ("Welcome" ++ nl ++ nl)
              ++ ("### Section A" ++ nl ++ nl ++ "Hi **there**" ++ nl ++ nl)))
  /\ assemblePage noData (barePage (localized "T") (localized ""))
     = Ok (mkDocument (JString "T") "t.mdx"
             (("---" ++ nl
               ++ "title: " ++ dq ++ "T" ++ dq ++ nl
               ++ "---" ++ nl ++ nl)
              ++ ("# " ++ "T" ++ nl ++ nl)
              ++ "")).
Proof.
  assert (Hne : "Welcome" <> "") by discriminate.
  split; [exact Hne|]. split.
  - apply (proj1 (description_emitted_when_not_empty
                    Sample.export Sample.intro _ "Intro" "Welcome"
                    ("### Section A" ++ nl ++ nl ++ "Hi **there**" ++ nl ++ nl)
                    eq_refl eq_refl eq_refl eq_refl)
             Hne).
  - apply (proj2 (description_emitted_when_not_empty
                    noData (barePage (localized "T") (localized "")) _
                    "T" "" "" eq_refl eq_refl eq_refl eq_refl)
             eq_refl).
Defined.

(** C10, as stated, fails: a page whose title field holds the empty string
    is not assembled like a page without a title field.  The test of the
    source is on the field object, which is there, so the title is the
    empty string and the file is named by the bare extension. *)
Lemma empty_title_is_not_untitled :
  assemblePage noData (barePage (localized "") None)
  = Ok (mkDocument (JString "") ".mdx"
          ("---" ++ nl ++ "title: " ++ dq ++ dq ++ nl ++ "---" ++ nl ++ nl
           ++ "# " ++ nl ++ nl))
  /\ assemblePage noData (barePage None None)
     = Ok (mkDocument (JString "Untitled") "untitled.mdx"
             ("---" ++ nl ++ "title: " ++ dq ++ "Untitled" ++ dq ++ nl
              ++ "---" ++ nl ++ nl ++ "# Untitled" ++ nl ++ nl))
  /\ assemblePage noData (barePage (localized "") None)
     <> assemblePage noData (barePage None None).
Proof. split; [reflexivity|]. split; [reflexivity|]. vm_compute. discriminate. Qed.

(** C10, amended.  A page whose title field is there and holds the empty
    string is assembled with the empty string as its title, in the front
    matter, in the level-1 heading and in the file name, which is the bare
    extension [.mdx].  The sentinel [Untitled] is the title of a page
    whose title field is absent. *)
Theorem empty_title_is_kept :
  forall (data : snapshot) (page : Entry.t) (f : Entry.fields_t) (body : string),
    Entry.fields page = Some f ->
    pageBlocks data f "" = Ok body ->
    let description := PageSpec.printed (fieldOr (Entry.description f) "") in
    (Entry.title f = Some (Localized.mk (Some "")) ->
     assemblePage data page
     = Ok (mkDocument (JString "") ".mdx"
             (PageSpec.frontMatter "" description
              ++ PageSpec.heading ""
              ++ PageSpec.paragraph description
              ++ body)))
    /\ (Entry.title f = None ->
        assemblePage data page
        = Ok (mkDocument (JString "Untitled") "untitled.mdx"
                (PageSpec.frontMatter "Untitled" description
                 ++ PageSpec.heading "Untitled"
                 ++ PageSpec.paragraph description
                 ++ body))).
Proof.
  intros data page f body Hf Hb description.
  split; intros Ht.
  - rewrite (assemblePage_ok data page f "" body Hf); [|now rewrite Ht|exact Hb].
    rewrite pageHeader_spec. do 2 f_equal. now rewrite !append_assoc.
  - rewrite (assemblePage_ok data page f "Untitled" body Hf);
      [|now rewrite Ht|exact Hb].
    rewrite pageHeader_spec. do 2 f_equal. now rewrite !append_assoc.
Qed.

Lemma empty_title_is_kept_witness :
  assemblePage noData (barePage (localized "") None)
  = Ok (mkDocument (JString "") ".mdx"
          (PageSpec.frontMatter "" None ++ PageSpec.heading ""
           ++ PageSpec.paragraph None ++ ""))
  /\ assemblePage noData (barePage None None)
     = Ok (mkDocument (JString "Untitled") "untitled.mdx"
             (PageSpec.frontMatter "Untitled" None ++ PageSpec.heading "Untitled"
              ++ PageSpec.paragraph None ++ "")).
Proof.
  split.
  - apply (proj1 (empty_title_is_kept noData (barePage (localized "") None) _ ""
                    eq_refl eq_refl)
             eq_refl).
  - apply (proj2 (empty_title_is_kept noData (barePage None None) _ ""
                    eq_refl eq_refl)
             eq_refl).
Defined.

(* ===================================================================== *)
(** ** The page loop *)
(* ===================================================================== *)

Section LoopProofs.

Variable data : snapshot.
Variable FS : Type.
Variable writeFileSync : FS -> string -> string -> FS * option error.

Lemma convertPage_step (index : nat) (page : Entry.t) (w : world FS) :
  convertPage data writeFileSync index page w
  = extend w (pageStep data writeFileSync (disk w) index page).
Proof.
  unfold convertPage, pageStep, extend.
  destruct (assemblePage data page) as [doc|e].
  - destruct (writeFileSync _ _ _) as [d' [e|]]; cbn [t_disk t_files t_lines];
      now rewrite ?app_nil_r.
  - cbn [t_disk t_files t_lines]. now rewrite app_nil_r.
Qed.

(** The loop is the pages one after the other, each on the file system
    the one before it left. *)
Lemma convertPages_run (pages : list Entry.t) :
  forall (index : nat) (w : world FS),
    convertPages data writeFileSync index pages w
    = extend w (runFrom data writeFileSync index pages (disk w)).
Proof.
  induction pages as [|page rest IH]; intros index w.
  - unfold extend. cbn [convertPages runFrom t_disk t_files t_lines].
    rewrite !app_nil_r. now destruct w.
  - cbn [convertPages runFrom]. rewrite IH, convertPage_step.
    unfold extend. cbn [disk written console t_disk t_files t_lines].
    now rewrite <- !app_assoc.
Qed.

Lemma convertPages_app (before after : list Entry.t) (index : nat) (w : world FS) :
  convertPages data writeFileSync index (before ++ after)%list w
  = convertPages data writeFileSync (index + List.length before) after
                 (convertPages data writeFileSync index before w).
Proof.
  revert index w. induction before as [|p before IH]; intros index w; simpl.
  - now rewrite Nat.add_0_r.
  - rewrite IH. now rewrite Nat.add_succ_r.
Qed.

Lemma pageStep_unindexed (d : FS) (page : Entry.t) (i j : nat) :
  t_disk (pageStep data writeFileSync d i page)
  = t_disk (pageStep data writeFileSync d j page)
  /\ t_files (pageStep data writeFileSync d i page)
     = t_files (pageStep data writeFileSync d j page)
  /\ map unindexed (t_lines (pageStep data writeFileSync d i page))
     = map unindexed (t_lines (pageStep data writeFileSync d j page)).
Proof.
  unfold pageStep. destruct (assemblePage data page) as [doc|e].
  - destruct (writeFileSync _ _ _) as [d' [e|]]; repeat split; reflexivity.
  - repeat split; reflexivity.
Qed.

(** The index of a page shows in its error entry and nowhere else. *)
Lemma runFrom_unindexed (pages : list Entry.t) :
  forall (d : FS) (i j : nat),
    t_disk (runFrom data writeFileSync i pages d)
    = t_disk (runFrom data writeFileSync j pages d)
    /\ t_files (runFrom data writeFileSync i pages d)
       = t_files (runFrom data writeFileSync j pages d)
    /\ map unindexed (t_lines (runFrom data writeFileSync i pages d))
       = map unindexed (t_lines (runFrom data writeFileSync j pages d)).
Proof.
  induction pages as [|p rest IH]; intros d i j.
  - repeat split; reflexivity.
  - cbn [runFrom t_disk t_files t_lines].
    destruct (pageStep_unindexed d p i j) as (Hd & Hf & Hl).
    rewrite Hd, Hf, !map_app, Hl.
    destruct (IH (t_disk (pageStep data writeFileSync d j p)) (S i) (S j))
      as (Hd' & Hf' & Hl').
    now rewrite Hd', Hf', Hl'.
Qed.



(** A write that returned is the write of the document of one of the
    pages. *)
Lemma runFrom_files (pages : list Entry.t) (file : string * string) :
  forall (d : FS) (i : nat),
    In file (t_files (runFrom data writeFileSync i pages d)) ->
    exists page doc,
      In page pages
      /\ assemblePage data page = Ok doc
      /\ file = (filepath (filename doc), markdown doc).
Proof.
  induction pages as [|p rest IH]; intros d i Hin.
  - elim Hin.
  - cbn [runFrom t_files] in Hin. apply in_app_or in Hin.
    destruct Hin as [Hin | Hin].
    + unfold pageStep in Hin.
      destruct (assemblePage data p) as [doc|e] eqn:Hdoc; [|elim Hin].
      destruct (writeFileSync _ _ _) as [d' [e|]]; [elim Hin|].
      destruct Hin as [<- | []].
      exists p, doc. repeat split; auto. now left.
    + destruct (IH _ _ Hin) as (page & doc & Hp & Hdoc & Hfile).
      exists page, doc. repeat split; auto. now right.
Qed.

(** The whole run: the count, the pages one after the other from the file
    system the run starts on, the summary. *)
Lemma main_run (disk0 : FS) :
  main data writeFileSync disk0
  = mkWorld (t_disk (runFrom data writeFileSync 0 (pages data) disk0))
            (t_files (runFrom data writeFileSync 0 (pages data) disk0))
            (Found (List.length (pages data))
             :: t_lines (runFrom data writeFileSync 0 (pages data) disk0)
             ++ [Done (List.length (pages data))])%list.
Proof. unfold main. now rewrite convertPages_run. Qed.

(** A page that fails leaves the file system the failure left, no write
    and one error entry. *)
Lemma failsWith_step (d d' : FS) (page : Entry.t) (e : error) (index : nat) :
  failsWith data writeFileSync d page e d' ->
  pageStep data writeFileSync d index page
  = mkTrace d' [] [ErrorConverting index (message e)].
Proof.
  unfold pageStep. intros [[He ->] | (doc & Hdoc & Hw)].
  - now rewrite He.
  - now rewrite Hdoc, Hw.
Qed.

End LoopProofs.

(** C6.  A page fails when its assembly throws or when the write of its
    document does; [disk'] is the file system the failure leaves, which is
    the one the page found when the assembly throws.  The page is then
    skipped: no write of it is recorded, the console gets one error entry
    with the index of the page and the message of the exception, and the
    loop goes on with the next page, on [disk'].  The pages after it are
    processed as a function of the file system they find and of nothing
    else; their index shows in their error entries only.  So when the
    failure leaves the file system as it was, as an assembly that throws
    does, the other pages of the batch are processed as without the
    failing page: the file system at the end and the writes are the same,
    and so are the console entries of the other pages, up to the page
    index in their error entries.  The whole run is this loop between the
    count and the summary. *)
Theorem failing_page_is_isolated :
  forall (data : snapshot) (FS : Type)
         (writeFileSync : FS -> string -> string -> FS * option error)
         (before after : list Entry.t) (page : Entry.t)
         (e : error) (index : nat) (w : world FS) (disk' : FS),
    let here := index + List.length before in
    let reached := convertPages data writeFileSync index before w in
    let run :=
      convertPages data writeFileSync index (before ++ page :: after)%list w in
    let without :=
      convertPages data writeFileSync index (before ++ after)%list w in
    let report := ErrorConverting here (message e) in
    failsWith data writeFileSync (disk reached) page e disk' ->
    run = convertPages data writeFileSync (S here) after
            (mkWorld disk' (written reached) (console reached ++ [report])%list)
    /\ (assemblePage data page = Throw e -> disk' = disk reached)
    /\ (forall w1 w2 : world FS,
          disk w1 = disk w2 ->
          exists files lines1 lines2,
            disk (convertPages data writeFileSync (S here) after w1)
            = disk (convertPages data writeFileSync here after w2)
            /\ written (convertPages data writeFileSync (S here) after w1)
               = (written w1 ++ files)%list
            /\ written (convertPages data writeFileSync here after w2)
               = (written w2 ++ files)%list
            /\ console (convertPages data writeFileSync (S here) after w1)
               = (console w1 ++ lines1)%list
            /\ console (convertPages data writeFileSync here after w2)
               = (console w2 ++ lines2)%list
            /\ map unindexed lines1 = map unindexed lines2)
    /\ (disk' = disk reached ->
        disk run = disk without
        /\ written run = written without
        /\ exists rest rest',
             console run = (console reached ++ report :: rest)%list
             /\ console without = (console reached ++ rest')%list
             /\ map unindexed rest = map unindexed rest')
    /\ (forall disk0 : FS,
          pages data = (before ++ page :: after)%list ->
          index = 0 ->
          w = mkWorld disk0 [] [Found (List.length (pages data))] ->
          main data writeFileSync disk0
          = mkWorld (disk run) (written run)
                    (console run ++ [Done (List.length (pages data))])%list).
Proof.
  intros data FS writeFileSync before after page e index w disk'
         here reached run without report Hfail.
  assert (Hrun : run = convertPages data writeFileSync (S here) after
                         (mkWorld disk' (written reached)
                                  (console reached ++ [report])%list)).
  { unfold run. rewrite convertPages_app. cbn [convertPages].
    rewrite convertPage_step. fold reached. fold here.
    rewrite (failsWith_step data FS writeFileSync _ _ _ _ here Hfail).
    unfold extend. cbn [t_disk t_files t_lines]. now rewrite app_nil_r. }
  assert (Hlater : forall w1 w2 : world FS,
             disk w1 = disk w2 ->
             exists files lines1 lines2,
               disk (convertPages data writeFileSync (S here) after w1)
               = disk (convertPages data writeFileSync here after w2)
               /\ written (convertPages data writeFileSync (S here) after w1)
                  = (written w1 ++ files)%list
               /\ written (convertPages data writeFileSync here after w2)
                  = (written w2 ++ files)%list
               /\ console (convertPages data writeFileSync (S here) after w1)
                  = (console w1 ++ lines1)%list
               /\ console (convertPages data writeFileSync here after w2)
                  = (console w2 ++ lines2)%list
               /\ map unindexed lines1 = map unindexed lines2).
  { intros w1 w2 Hd. rewrite !convertPages_run, Hd.
    destruct (runFrom_unindexed data FS writeFileSync after (disk w2) (S here) here)
      as (H1 & H2 & H3).
    exists (t_files (runFrom data writeFileSync here after (disk w2))),
           (t_lines (runFrom data writeFileSync (S here) after (disk w2))),
           (t_lines (runFrom data writeFileSync here after (disk w2))).
    unfold extend. cbn [disk written console].
    rewrite H2. repeat split; auto. }
  split; [exact Hrun|]. split; [|split; [exact Hlater|split]].
  - intros He. destruct Hfail as [[_ Hd] | (doc & Hdoc & _)]; [exact Hd|].
    rewrite He in Hdoc. discriminate Hdoc.
  - intros Hd.
    assert (Hwithout : without = convertPages data writeFileSync here after reached)
      by (unfold without; now rewrite convertPages_app).
    destruct (Hlater (mkWorld disk' (written reached)
                              (console reached ++ [report])%list)
                     reached Hd)
      as (files & lines1 & lines2 & H1 & H2 & H3 & H4 & H5 & H6).
    rewrite <- Hrun in H1, H2, H4. rewrite <- Hwithout in H1, H3, H5.
    cbn [written console] in H2, H4.
    split; [exact H1|]. split; [now rewrite H2, H3|].
    exists lines1, lines2. split; [|split; auto].
    rewrite H4. now rewrite <- app_assoc.
  - intros disk0 Hpages -> ->. unfold main, run. now rewrite Hpages.
Qed.

Lemma failing_page_is_isolated_witness :
  failsWith Sample.export2 Sample.writeFileSync
            (disk (convertPages Sample.export2 Sample.writeFileSync 0
                                [Sample.intro] (mkWorld [] [] [Found 4])))
            Sample.endless
            (SystemError ("ENAMETOOLONG: name too long, open '"
                          ++ filepath (Sample.letters 252 ++ ".mdx") ++ "'"))
            [("markdown-output/intro.mdx", Sample.introMarkdown)]
  /\ convertPages Sample.export2 Sample.writeFileSync 0
       ([Sample.intro] ++ Sample.endless :: [Sample.again; Sample.orphan])%list
       (mkWorld [] [] [Found 4])
     = convertPages Sample.export2 Sample.writeFileSync 2
         [Sample.again; Sample.orphan]
         (mkWorld [("markdown-output/intro.mdx", Sample.introMarkdown)]
                  (written (convertPages Sample.export2 Sample.writeFileSync 0
                                         [Sample.intro] (mkWorld [] [] [Found 4])))
                  (console (convertPages Sample.export2 Sample.writeFileSync 0
                                         [Sample.intro] (mkWorld [] [] [Found 4]))
                   ++ [ErrorConverting 1
                         (message
                            (SystemError
                               ("ENAMETOOLONG: name too long, open '"
                                ++ filepath (Sample.letters 252 ++ ".mdx")
                                ++ "'")))])%list)
  /\ written (convertPages Sample.export2 Sample.writeFileSync 0
                ([Sample.intro] ++ Sample.endless :: [Sample.again; Sample.orphan])%list
                (mkWorld [] [] [Found 4]))
     = written (convertPages Sample.export2 Sample.writeFileSync 0
                  ([Sample.intro] ++ [Sample.again; Sample.orphan])%list
                  (mkWorld [] [] [Found 4]))
  /\ assemblePage Sample.export Sample.broken
     = Throw (TypeError_read JsUndefined "title")
  /\ written (convertPages Sample.export Sample.writeFileSync 0
                ([Sample.intro] ++ Sample.broken :: [Sample.orphan])%list
                (mkWorld [] [] [Found 3]))
     = written (convertPages Sample.export Sample.writeFileSync 0
                  ([Sample.intro] ++ [Sample.orphan])%list
                  (mkWorld [] [] [Found 3])).
Proof.
  assert (H : failsWith Sample.export2 Sample.writeFileSync
                (disk (convertPages Sample.export2 Sample.writeFileSync 0
                                    [Sample.intro] (mkWorld [] [] [Found 4])))
                Sample.endless
                (SystemError ("ENAMETOOLONG: name too long, open '"
                              ++ filepath (Sample.letters 252 ++ ".mdx") ++ "'"))
                [("markdown-output/intro.mdx", Sample.introMarkdown)])
    by (right; eexists; split; reflexivity).
  assert (G : failsWith Sample.export Sample.writeFileSync
                (disk (convertPages Sample.export Sample.writeFileSync 0
                                    [Sample.intro] (mkWorld [] [] [Found 3])))
                Sample.broken (TypeError_read JsUndefined "title")
                (disk (convertPages Sample.export Sample.writeFileSync 0
                                    [Sample.intro] (mkWorld [] [] [Found 3]))))
    by (left; split; reflexivity).
  destruct (failing_page_is_isolated
              Sample.export2 Sample.files Sample.writeFileSync
              [Sample.intro] [Sample.again; Sample.orphan] Sample.endless
              _ 0 (mkWorld [] [] [Found 4]) _ H)
    as (Hrun & _ & _ & Hsame & _).
  destruct (failing_page_is_isolated
              Sample.export Sample.files Sample.writeFileSync
              [Sample.intro] [Sample.orphan] Sample.broken
              _ 0 (mkWorld [] [] [Found 3]) _ G)
    as (_ & _ & _ & Gsame & _).
  split; [exact H|]. split; [exact Hrun|].
  split; [exact (proj1 (proj2 (Hsame eq_refl)))|].
  split; [reflexivity|].
  exact (proj1 (proj2 (Gsame eq_refl))).
Defined.

(** The end-to-end scenario of the specification: the sample export gives
    the file of the page with its block, skips the page without fields and
    writes the page with the unresolved reference. *)
Example main_sample :
  main Sample.export Sample.writeFileSync []
  = mkWorld
      [("markdown-output/intro.mdx", Sample.introMarkdown);
       ("markdown-output/hello-world-2024.mdx", Sample.orphanMarkdown)]
      [("markdown-output/intro.mdx", Sample.introMarkdown);
       ("markdown-output/hello-world-2024.mdx", Sample.orphanMarkdown)]
      [Found 3;
       Converted (JString "Intro") "intro.mdx";
       ErrorConverting 1 "Cannot read properties of undefined (reading 'title')";
       Converted (JString "Hello, World!  2024") "hello-world-2024.mdx";
       Done 3].
Proof. reflexivity. Qed.

(** A run in which a write throws and two pages are filed under one name:
    four pages, three writes that return, two files. *)
Example main_sample_files :
  main Sample.export2 Sample.writeFileSync []
  = mkWorld
      [("markdown-output/intro.mdx",
        PageSpec.frontMatter "INTRO!" None ++ PageSpec.heading "INTRO!"
        ++ PageSpec.paragraph None);
       ("markdown-output/hello-world-2024.mdx", Sample.orphanMarkdown)]
      [("markdown-output/intro.mdx", Sample.introMarkdown);
       ("markdown-output/intro.mdx",
        PageSpec.frontMatter "INTRO!" None ++ PageSpec.heading "INTRO!"
        ++ PageSpec.paragraph None);
       ("markdown-output/hello-world-2024.mdx", Sample.orphanMarkdown)]
      [Found 4;
       Converted (JString "Intro") "intro.mdx";
       ErrorConverting 1
         ("ENAMETOOLONG: name too long, open '"
          ++ filepath (Sample.letters 252 ++ ".mdx") ++ "'");
       Converted (JString "INTRO!") "intro.mdx";
       Converted (JString "Hello, World!  2024") "hello-world-2024.mdx";
       Done 4].
Proof. reflexivity. Qed.

(* ===================================================================== *)
(** ** Further properties: the entity lookups *)
(* ===================================================================== *)

Lemma find_first_match {A : Type} (p : A -> bool) (l : list A) :
  match Arr.find p l with
  | Some x =>
      exists before after,
        l = (before ++ x :: after)%list
        /\ p x = true
        /\ Forall (fun y => p y = false) before
  | None => Forall (fun y => p y = false) l
  end.
Proof.
  induction l as [|a l IH]; simpl; [constructor|].
  destruct (p a) eqn:Ha.
  - exists [], l. repeat split; auto.
  - destruct (Arr.find p l) as [x|].
    + destruct IH as (before & after & -> & Hx & Hb).
      exists (a :: before), after. repeat split; auto.
    + constructor; auto.
Qed.

(** X1.  [findEntry] returns the first entry of the snapshot whose
    identifier is the one asked for: every entry before it has another
    identifier.  It returns nothing exactly when no entry has the
    identifier. *)
Theorem findEntry_first_match :
  forall (data : snapshot) (id : option string),
    match findEntry data id with
    | Some e =>
        exists before after,
          entries data = (before ++ e :: after)%list
          /\ Entry.id e = id
          /\ Forall (fun x => Entry.id x <> id) before
    | None => Forall (fun x => Entry.id x <> id) (entries data)
    end.
Proof.
  intros data id. unfold findEntry.
  pose proof (find_first_match (fun e => strict_eq (Entry.id e) id) (entries data)) as H.
  destruct (Arr.find _ (entries data)) as [e|].
  - destruct H as (before & after & Heq & He & Hb).
    exists before, after. split; [exact Heq|]. split.
    + now apply strict_eq_true.
    + eapply Forall_impl; [|exact Hb]. intros x Hx. now apply strict_eq_false.
  - eapply Forall_impl; [|exact H]. intros x Hx. now apply strict_eq_false.
Qed.

(** X2.  [findAsset] returns the first asset with the identifier asked for,
    returns nothing when every asset has another identifier, and throws,
    reading [id] of [undefined], when it meets an asset without [sys]
    before any asset with the identifier. *)
Theorem findAsset_first_match_or_throw :
  forall (data : snapshot) (id : option string),
    match findAsset data id with
    | Ok (Some a) => assetResolves data id a
    | Ok None => assetMissing data id
    | Throw e =>
        e = TypeError_read JsUndefined "id"
        /\ exists before a after,
            assets data = (before ++ a :: after)%list
            /\ Forall (hasOtherId id) before
            /\ Asset.sys a = None
    end.
Proof.
  intros data id. unfold findAsset, assetResolves, assetMissing.
  induction (assets data) as [|a l IH]; simpl; [constructor|].
  destruct (Asset.sys a) as [s|] eqn:Hs; simpl.
  - destruct (strict_eq (Sys.id s) id) eqn:Hid.
    + exists [], l. split; [reflexivity|]. split; [constructor|].
      exists s. split; [exact Hs | now apply strict_eq_true].
    + assert (Ha : hasOtherId id a)
        by (exists s; split; [exact Hs | now apply strict_eq_false]).
      destruct (Arr.findM _ l) as [[x|]|e].
      * destruct IH as (before & after & -> & Hb & Hx).
        exists (a :: before), after. repeat split; auto.
      * constructor; auto.
      * destruct IH as (-> & before & x & after & -> & Hb & Hx).
        split; [reflexivity|].
        exists (a :: before), x, after. repeat split; auto.
  - split; [reflexivity|]. exists [], a, l. repeat split; auto.
Qed.

(* ===================================================================== *)
(** ** Further properties: the dispatch on the kind of a node *)
(* ===================================================================== *)

(** The [switch], with the recursive calls written as calls of
    [processNode]. *)
Lemma processObject_eq (data : snapshot) (node : Node.t) :
  processObject data node
  = let children := mapContent (fun _ n => processNode data n) node in
    let ty := Node.nodeType node in
    if is_lit ty "document" then
      parts <- children ;; Ok (JString (Arr.join (nl ++ nl) parts))
    else if is_lit ty "paragraph" then
      parts <- children ;; Ok (JString (Arr.join "" parts))
    else if is_lit ty "heading-2" then
      parts <- children ;; Ok (JString ("## " ++ Arr.join "" parts))
    else if is_lit ty "heading-3" then
      parts <- children ;; Ok (JString ("### " ++ Arr.join "" parts))
    else if is_lit ty "unordered-list" then
      items <- mapContent
                 (fun _ item => v <- processNode data item ;; Ok ("- " ++ toString v))
                 node ;;
      Ok (JString (Arr.joinStrings nl items))
    else if is_lit ty "ordered-list" then
      items <- mapContent
                 (fun i item =>
                    v <- processNode data item ;;
                    Ok (Str.ofNat (i + 1) ++ ". " ++ toString v))
                 node ;;
      Ok (JString (Arr.joinStrings nl items))
    else if is_lit ty "list-item" then
      parts <- children ;; Ok (JString (Arr.join "" parts))
    else if is_lit ty "hyperlink" then
      parts <- children ;;
      let linkText := Arr.join "" parts in
      read d := Node.data node for "uri" ;;
      Ok (JString ("[" ++ linkText ++ "](" ++ toString (of_option (Node.uri d)) ++ ")"))
    else if is_lit ty "embedded-asset-block" then
      processAsset data node
    else if is_lit ty "text" then
      Ok (processText node)
    else if is_lit ty "table" then
      t <- processTable data node ;;
      Ok (JString (nl ++ nl ++ t ++ nl ++ nl))
    else
      match Node.content node with
      | Some kids =>
          parts <- Arr.map (processNode data) kids ;;
          Ok (JString (Arr.join "" parts))
      | None => Ok (JString "")
      end.
Proof. destruct node. reflexivity. Qed.

Lemma is_lit_noneOf (kinds : list string) (ty : option string) (lit : string) :
  KindSpec.noneOf kinds ty -> In lit kinds -> is_lit ty lit = false.
Proof.
  intros Hnone Hin. destruct (is_lit ty lit) eqn:E; [|reflexivity].
  apply is_lit_true in E. elim (Hnone lit E Hin).
Qed.

Lemma is_lit_other (ty : option string) (a b : string) :
  ty = Some a -> a <> b -> is_lit ty b = false.
Proof.
  intros -> Hne. destruct (is_lit (Some a) b) eqn:E; [|reflexivity].
  apply is_lit_true in E. congruence.
Qed.

(** The kind of the node is none of the named ones: the [default] case. *)
Lemma processObject_default (data : snapshot) (node : Node.t) :
  KindSpec.noneOf KindSpec.named (Node.nodeType node) ->
  processObject data node
  = match Node.content node with
    | Some kids =>
        parts <- Arr.map (processNode data) kids ;;
        Ok (JString (Arr.join "" parts))
    | None => Ok (JString "")
    end.
Proof.
  intros H. rewrite processObject_eq. cbv zeta.
  repeat (rewrite (is_lit_noneOf _ _ _ H) by (simpl; tauto)).
  reflexivity.
Qed.

(** X3.  A node of one of the eight kinds whose case maps over the
    children throws, reading [map] of [undefined], when it has no [content];
    a table without [content] throws reading [forEach].  A node of a kind
    the [switch] does not name renders as the empty string instead, and so
    does any node without [content] at the root of a block's rich text,
    where [richTextToMarkdown] returns before the dispatch. *)
Theorem missing_content_throws_for_named_kinds :
  forall (data : snapshot) (node : Node.t),
    Node.content node = None ->
    (forall kind,
        In kind KindSpec.containers ->
        Node.nodeType node = Some kind ->
        processNode data (Some node) = Throw (TypeError_read JsUndefined "map"))
    /\ (Node.nodeType node = Some "table" ->
        processNode data (Some node) = Throw (TypeError_read JsUndefined "forEach"))
    /\ (KindSpec.noneOf KindSpec.named (Node.nodeType node) ->
        processNode data (Some node) = Ok (JString ""))
    /\ richTextToMarkdown data (Entry.RichText node) = Ok (JString "").
Proof.
  intros data node Hc. split; [|split; [|split]].
  - intros kind Hin Hty. destruct node as [ty c d v m]. simpl in Hc, Hty. subst.
    simpl in Hin.
    repeat (destruct Hin as [<-|Hin]; [reflexivity|]). elim Hin.
  - intros Hty. destruct node as [ty c d v m]. simpl in Hc, Hty. subst.
    reflexivity.
  - intros Hnone. unfold processNode. rewrite processObject_default by exact Hnone.
    now rewrite Hc.
  - unfold richTextToMarkdown. now rewrite Hc.
Qed.

Lemma missing_content_throws_for_named_kinds_witness :
  processNode noData (Kinds.leaf "heading-2")
  = Throw (TypeError_read JsUndefined "map")
  /\ processNode noData (Kinds.leaf "table")
     = Throw (TypeError_read JsUndefined "forEach")
  /\ processNode noData (Kinds.leaf "blockquote") = Ok (JString "")
  /\ richTextToMarkdown noData
       (Entry.RichText (Node.mk (Some "heading-2") None None None None))
     = Ok (JString "").
Proof.
  split; [|split; [|split]].
  - apply (proj1 (missing_content_throws_for_named_kinds noData
                    (Node.mk (Some "heading-2") None None None None) eq_refl)
             "heading-2"); [simpl; tauto | reflexivity].
  - apply (proj1 (proj2 (missing_content_throws_for_named_kinds noData
                    (Node.mk (Some "table") None None None None) eq_refl))).
    reflexivity.
  - apply (proj1 (proj2 (proj2 (missing_content_throws_for_named_kinds noData
                    (Node.mk (Some "blockquote") None None None None) eq_refl)))).
    intros k Hk Hin. injection Hk as <-. simpl in Hin.
    repeat (destruct Hin as [Hin|Hin]; [discriminate Hin|]). exact Hin.
  - apply (proj2 (proj2 (proj2 (missing_content_throws_for_named_kinds noData
                    (Node.mk (Some "heading-2") None None None None) eq_refl)))).
Defined.

Section Children.

Context {A B : Type}.

Lemma mapi_throw (f : nat -> A -> result B) (before after : list A) (k : A)
  (e : error) :
  Forall (fun c => forall j, succeeds (f j c) = true) before ->
  (forall j, f j k = Throw e) ->
  forall i, Arr.mapi f i (before ++ k :: after) = Throw e.
Proof.
  induction 1 as [|c before Hc _ IH]; intros Hk i; simpl.
  - now rewrite Hk.
  - specialize (Hc i). destruct (f i c); [|discriminate]. simpl.
    now rewrite (IH Hk).
Qed.

Lemma map_throw (f : A -> result B) (before after : list A) (k : A) (e : error) :
  Forall (fun c => succeeds (f c) = true) before ->
  f k = Throw e ->
  Arr.map f (before ++ k :: after) = Throw e.
Proof.
  induction 1 as [|c before Hc _ IH]; intros Hk; simpl.
  - now rewrite Hk.
  - destruct (f c); [|discriminate]. simpl. now rewrite (IH Hk).
Qed.

Lemma mapi_Forall2 (f : nat -> A -> result B) (l : list A) (ys : list B) :
  Forall2 (fun x y => forall j, f j x = Ok y) l ys ->
  forall i, Arr.mapi f i l = Ok ys.
Proof.
  induction 1 as [|x y l ys Hxy _ IH]; intros i; simpl.
  - reflexivity.
  - rewrite Hxy. simpl. now rewrite IH.
Qed.

End Children.

Lemma succeeds_bind {A B : Type} (c : result A) (g : A -> B) :
  succeeds c = true -> succeeds (v <- c ;; Ok (g v)) = true.
Proof. destruct c; [reflexivity | discriminate]. Qed.

Ltac child_succeeds H :=
  eapply Forall_impl; [|exact H];
  let c := fresh "c" in let Hc := fresh "Hc" in
  intros c Hc; cbv beta in Hc; cbv beta; intros; cbv beta;
  first [ exact Hc | apply succeeds_bind; exact Hc ].

(** X4.  In every node that renders its children, the first child that
    throws decides: when the children before it render and it throws [e],
    the node throws [e], whatever its kind (the kinds [text],
    [embedded-asset-block] and [table] apart, which do not map
    [processNode] over their children) and whatever comes behind. *)
Theorem first_failing_child_escapes :
  forall (data : snapshot) (node : Node.t) before k after (e : error),
    KindSpec.noneOf KindSpec.special (Node.nodeType node) ->
    Node.content node = Some (before ++ k :: after)%list ->
    Forall (fun c => succeeds (processNode data c) = true) before ->
    processNode data k = Throw e ->
    processNode data (Some node) = Throw e.
Proof.
  intros data node before k after e Hnone Hc Hbefore Hk.
  unfold processNode at 1. rewrite processObject_eq. cbv zeta.
  unfold mapContent. rewrite Hc.
  rewrite (is_lit_noneOf _ _ "embedded-asset-block" Hnone) by (simpl; tauto).
  rewrite (is_lit_noneOf _ _ "text" Hnone) by (simpl; tauto).
  rewrite (is_lit_noneOf _ _ "table" Hnone) by (simpl; tauto).
  repeat match goal with
         | |- context [if is_lit ?t ?l then _ else _] => destruct (is_lit t l)
         end.
  all: try (rewrite (mapi_throw _ before after k e);
            [reflexivity | child_succeeds Hbefore
            | intros; cbv beta; rewrite Hk; reflexivity]).
  rewrite (map_throw _ before after k e); [reflexivity | exact Hbefore | exact Hk].
Qed.

Lemma first_failing_child_escapes_witness :
  processNode noData
    (Kinds.node "document"
       [Sample.paragraph "a"; Kinds.leaf "paragraph"; Kinds.leaf "table"])
  = Throw (TypeError_read JsUndefined "map").
Proof.
  apply (first_failing_child_escapes noData
           (Node.mk (Some "document")
              (Some [Sample.paragraph "a"; Kinds.leaf "paragraph"; Kinds.leaf "table"])
              None None None)
           [Sample.paragraph "a"] (Kinds.leaf "paragraph") [Kinds.leaf "table"]
           (TypeError_read JsUndefined "map")).
  - intros k Hk Hin. injection Hk as <-. simpl in Hin.
    repeat (destruct Hin as [Hin|Hin]; [discriminate Hin|]). exact Hin.
  - reflexivity.
  - repeat first [ apply Forall_nil | apply Forall_cons; [reflexivity|] ].
  - reflexivity.
Defined.

Lemma numbered_length (i : nat) (items : list jsval) :
  List.length (numbered i items) = List.length items.
Proof.
  revert i. induction items as [|v items IH]; intros i; simpl; [reflexivity|].
  now rewrite IH.
Qed.

Lemma numbered_nth (items : list jsval) :
  forall (base i : nat) (v : jsval),
    nth_error items i = Some v ->
    nth_error (numbered base items) i
    = Some (Str.ofNat (S (base + i)) ++ ". " ++ toString v).
Proof.
  induction items as [|p items IH]; intros base [|i] v Hv;
    simpl in Hv; try discriminate.
  - injection Hv as ->. cbn [numbered nth_error]. now rewrite Nat.add_0_r.
  - cbn [numbered nth_error]. rewrite (IH (S base) i v Hv).
    now rewrite Nat.add_succ_r.
Qed.

Lemma mapi_numbered (data : snapshot) kids parts :
  Forall2 (fun k p => processNode data k = Ok p) kids parts ->
  forall i,
    Arr.mapi (fun i item =>
                v <- processNode data item ;;
                Ok (Str.ofNat (i + 1) ++ ". " ++ toString v)) i kids
    = Ok (numbered i parts).
Proof.
  induction 1 as [|k p kids parts Hk _ IH]; intros i.
  - reflexivity.
  - cbn [Arr.mapi numbered]. rewrite Hk. cbn [bind]. rewrite IH. cbn [bind].
    now rewrite Nat.add_1_r.
Qed.

Lemma mapi_bulleted (data : snapshot) kids parts :
  Forall2 (fun k p => processNode data k = Ok p) kids parts ->
  forall i,
    Arr.mapi (fun _ item => v <- processNode data item ;; Ok ("- " ++ toString v))
             i kids
    = Ok (map (fun v => "- " ++ toString v) parts).
Proof.
  induction 1 as [|k p kids parts Hk _ IH]; intros i.
  - reflexivity.
  - cbn [Arr.mapi map]. rewrite Hk. cbn [bind]. now rewrite IH.
Qed.

Lemma processObject_kind (data : snapshot) (node : Node.t) (kind : string) :
  Node.nodeType node = Some kind ->
  processObject data node
  = processObject data
      (Node.mk (Some kind) (Node.content node) (Node.data node)
               (Node.value node) (Node.marks node)).
Proof. intros H. destruct node. simpl in H. now subst. Qed.

Lemma linesOf_single (t : string) :
  TableSpec.oneLine t -> t <> "" -> TableSpec.linesOf t = [t].
Proof.
  unfold TableSpec.oneLine.
  induction t as [|c r IH]; intros H Hne; [now elim Hne|].
  cbn [TableSpec.lineFeeds] in H. cbn [TableSpec.linesOf].
  destruct (Ascii.eqb c (ascii_of_nat 10)); [discriminate H|].
  destruct r as [|d r]; [reflexivity|].
  rewrite (IH H); [reflexivity | discriminate].
Qed.

(** Texts without a line feed, none of them empty, joined by line feeds:
    the lines of the result are the texts. *)
Lemma linesOf_join (ls : list string) :
  Forall (fun t => TableSpec.oneLine t /\ t <> "") ls ->
  TableSpec.linesOf (Arr.joinStrings nl ls) = ls.
Proof.
  induction 1 as [|t ls [Ht Hne] _ IH]; [reflexivity|].
  destruct ls as [|u ls].
  - now apply linesOf_single.
  - change (Arr.joinStrings nl (t :: u :: ls))
      with (t ++ nl ++ Arr.joinStrings nl (u :: ls)).
    rewrite (linesOf_line t _ Ht). now rewrite IH.
Qed.

Lemma lineFeeds_joined (l : list string) :
  TableSpec.lineFeeds (Arr.joinStrings nl l)
  = list_sum (map TableSpec.lineFeeds l) + (List.length l - 1).
Proof.
  induction l as [|x l IH]; [reflexivity|].
  destruct l as [|y l]; [cbn; lia|].
  change (Arr.joinStrings nl (x :: y :: l))
    with (x ++ nl ++ Arr.joinStrings nl (y :: l)).
  rewrite !lineFeeds_app, IH. change (TableSpec.lineFeeds nl) with 1.
  cbn [map List.length]. rewrite !list_sum_step. lia.
Qed.

Lemma lineFeeds_uint (u : Decimal.uint) :
  TableSpec.lineFeeds (NilEmpty.string_of_uint u) = 0.
Proof. induction u; cbn; auto. Qed.

Lemma numbered_lines (parts : list jsval) :
  Forall (fun p => TableSpec.oneLine (toString p)) parts ->
  forall i,
    Forall (fun t => TableSpec.oneLine t /\ t <> "") (numbered i parts).
Proof.
  induction 1 as [|p parts Hp _ IH]; intros i; cbn [numbered]; constructor; auto.
  split.
  - unfold TableSpec.oneLine, Str.ofNat.
    rewrite !lineFeeds_app, lineFeeds_uint, Hp. reflexivity.
  - unfold Str.ofNat.
    destruct (NilEmpty.string_of_uint (Nat.to_uint (S i))); discriminate.
Qed.

Lemma bulleted_lines (parts : list jsval) :
  Forall (fun p => TableSpec.oneLine (toString p)) parts ->
  Forall (fun t => TableSpec.oneLine t /\ t <> "")
         (map (fun v => "- " ++ toString v) parts).
Proof.
  induction 1 as [|p parts Hp _ IH]; cbn [map]; constructor; auto.
  split; [exact Hp | discriminate].
Qed.

(** X5.  A list whose children render is the texts of its items joined by
    line feeds, one item per element of its [content], in order: in an
    ordered list the item of the element at index [i] starts with the
    decimal number [i + 1], in an unordered list every item starts with a
    hyphen.  A [null] element gives an item and takes a number like any
    other, and a child that renders as [undefined] prints that word.  When
    no child rendering has a line feed in it, the items are the lines of
    the output: one line per element.  A child rendering that has line
    feeds, as that of a nested list, spreads its item over as many more
    lines. *)
Theorem list_items_take_one_line_each :
  forall (data : snapshot) (node : Node.t) kids parts,
    Node.content node = Some kids ->
    Forall2 (fun k p => processNode data k = Ok p) kids parts ->
    (Node.nodeType node = Some "ordered-list" ->
     processNode data (Some node)
     = Ok (JString (Arr.joinStrings nl (numbered 0 parts)))
     /\ List.length (numbered 0 parts) = List.length kids
     /\ (forall i v,
          nth_error parts i = Some v ->
          nth_error (numbered 0 parts) i
          = Some (Str.ofNat (i + 1) ++ ". " ++ toString v))
     /\ (Forall (fun p => TableSpec.oneLine (toString p)) parts ->
         TableSpec.linesOf (Arr.joinStrings nl (numbered 0 parts))
         = numbered 0 parts))
    /\ (Node.nodeType node = Some "unordered-list" ->
        processNode data (Some node)
        = Ok (JString (Arr.joinStrings nl (map (fun v => "- " ++ toString v) parts)))
        /\ (Forall (fun p => TableSpec.oneLine (toString p)) parts ->
            TableSpec.linesOf
              (Arr.joinStrings nl (map (fun v => "- " ++ toString v) parts))
            = map (fun v => "- " ++ toString v) parts
            /\ List.length
                 (TableSpec.linesOf
                    (Arr.joinStrings nl (map (fun v => "- " ++ toString v) parts)))
               = List.length kids))
    /\ (Forall (fun p => TableSpec.oneLine (toString p)) parts ->
        TableSpec.lineFeeds (Arr.joinStrings nl (numbered 0 parts))
        = List.length kids - 1)
    /\ TableSpec.lineFeeds (Arr.joinStrings nl (numbered 0 parts))
       = list_sum (map (fun p => TableSpec.lineFeeds (toString p)) parts)
         + (List.length kids - 1).
Proof.
  intros data node kids parts Hc Hkids.
  assert (Hfeeds : TableSpec.lineFeeds (Arr.joinStrings nl (numbered 0 parts))
                   = list_sum (map (fun p => TableSpec.lineFeeds (toString p)) parts)
                     + (List.length kids - 1)).
  { rewrite lineFeeds_joined, numbered_length, (Forall2_length Hkids). f_equal.
    generalize 0. clear. induction parts as [|p parts IH]; intros i; [reflexivity|].
    cbn [numbered map]. rewrite !list_sum_step, (IH (S i)). f_equal.
    unfold Str.ofNat. rewrite !lineFeeds_app, lineFeeds_uint. reflexivity. }
  split; [|split; [|split]].
  - intros Hty. split; [|split; [|split]].
    + unfold processNode. rewrite (processObject_kind _ _ _ Hty), processObject_eq.
      cbv zeta. cbn [Node.nodeType Node.content].
      change (is_lit (Some "ordered-list") "document") with false.
      change (is_lit (Some "ordered-list") "paragraph") with false.
      change (is_lit (Some "ordered-list") "heading-2") with false.
      change (is_lit (Some "ordered-list") "heading-3") with false.
      change (is_lit (Some "ordered-list") "unordered-list") with false.
      change (is_lit (Some "ordered-list") "ordered-list") with true.
      cbv iota. unfold mapContent. cbn [Node.content]. rewrite Hc.
      now rewrite (mapi_numbered data kids parts Hkids).
    + rewrite numbered_length. symmetry. exact (Forall2_length Hkids).
    + intros i v Hv. rewrite (numbered_nth parts 0 i v Hv).
      now rewrite Nat.add_1_r.
    + intros Hlines. apply linesOf_join. now apply numbered_lines.
  - intros Hty. split.
    + unfold processNode. rewrite (processObject_kind _ _ _ Hty), processObject_eq.
      cbv zeta. cbn [Node.nodeType Node.content].
      change (is_lit (Some "unordered-list") "document") with false.
      change (is_lit (Some "unordered-list") "paragraph") with false.
      change (is_lit (Some "unordered-list") "heading-2") with false.
      change (is_lit (Some "unordered-list") "heading-3") with false.
      change (is_lit (Some "unordered-list") "unordered-list") with true.
      cbv iota. unfold mapContent. cbn [Node.content]. rewrite Hc.
      now rewrite (mapi_bulleted data kids parts Hkids).
    + intros Hlines.
      rewrite (linesOf_join _ (bulleted_lines parts Hlines)).
      split; [reflexivity|].
      rewrite length_map. symmetry. exact (Forall2_length Hkids).
  - intros Hlines. rewrite Hfeeds.
    assert (E : list_sum (map (fun p => TableSpec.lineFeeds (toString p)) parts) = 0).
    { clear - Hlines. induction Hlines as [|p parts Hp _ IH]; [reflexivity|].
      cbn [map]. rewrite list_sum_step, IH, Hp. reflexivity. }
    now rewrite E.
  - exact Hfeeds.
Qed.

Lemma list_items_take_one_line_each_witness :
  processNode noData
    (Kinds.node "ordered-list"
       [Kinds.node "list-item" [Sample.text "a"]; None; Kinds.leaf "text"])
  = Ok (JString (Arr.joinStrings nl
                   (numbered 0 [JString "a"; JString ""; JUndefined])))
  /\ nth_error (numbered 0 [JString "a"; JString ""; JUndefined]) 2
     = Some (Str.ofNat (2 + 1) ++ ". " ++ toString JUndefined)
  /\ Forall (fun p => TableSpec.oneLine (toString p))
            [JString "a"; JString ""; JUndefined]
  /\ TableSpec.linesOf
       (Arr.joinStrings nl (numbered 0 [JString "a"; JString ""; JUndefined]))
     = numbered 0 [JString "a"; JString ""; JUndefined].
Proof.
  assert (H : Forall2 (fun k p => processNode noData k = Ok p)
                [Kinds.node "list-item" [Sample.text "a"]; None; Kinds.leaf "text"]
                [JString "a"; JString ""; JUndefined])
    by (repeat first [ apply Forall2_nil | apply Forall2_cons; [reflexivity|] ]).
  assert (L : Forall (fun p => TableSpec.oneLine (toString p))
                     [JString "a"; JString ""; JUndefined])
    by (repeat first [ apply Forall_nil | apply Forall_cons; [reflexivity|] ]).
  destruct (proj1 (list_items_take_one_line_each noData
                     (Node.mk (Some "ordered-list")
                        (Some [Kinds.node "list-item" [Sample.text "a"];
                               None; Kinds.leaf "text"])
                        None None None)
                     _ _ eq_refl H)
              eq_refl)
    as (Hout & _ & Hnth & Hlines).
  split; [exact Hout|]. split; [exact (Hnth 2 JUndefined eq_refl)|].
  split; [exact L | exact (Hlines L)].
Defined.

(** A list in a list: the first item of the outer list takes two lines. *)
Example nested_list_lines :
  exists out,
    processNode noData
      (Kinds.node "ordered-list"
         [Kinds.node "list-item"
            [Kinds.node "unordered-list"
               [Kinds.node "list-item" [Sample.text "a"];
                Kinds.node "list-item" [Sample.text "b"]]];
          Kinds.node "list-item" [Sample.text "c"]])
    = Ok (JString out)
    /\ TableSpec.linesOf out = ["1. - a"; "- b"; "2. c"].
Proof. eexists. split; reflexivity. Qed.

(* ===================================================================== *)
(** ** Further properties: text nodes *)
(* ===================================================================== *)

Lemma applyMark_tag (m : Node.mark) (text : jsval) :
  applyMark m text
  = if MarkSpec.recognised m
    then JString (MarkSpec.tag m ++ toString text ++ MarkSpec.tag m)
    else text.
Proof.
  unfold applyMark, MarkSpec.recognised, MarkSpec.tag.
  destruct (is_lit (Node.type m) "bold") eqn:Hb.
  - apply is_lit_true in Hb. rewrite Hb. reflexivity.
  - destruct (is_lit (Node.type m) "code"); reflexivity.
Qed.

Lemma tag_unrecognised (m : Node.mark) :
  MarkSpec.recognised m = false -> MarkSpec.tag m = "".
Proof.
  unfold MarkSpec.recognised, MarkSpec.tag.
  destruct (is_lit (Node.type m) "bold"), (is_lit (Node.type m) "code");
    simpl; congruence.
Qed.

Lemma wrap_tag (m : Node.mark) (s : string) :
  TextSpec.wrap (Node.type m) s = MarkSpec.tag m ++ s ++ MarkSpec.tag m.
Proof.
  assert (H : JString (TextSpec.wrap (Node.type m) s)
              = JString (MarkSpec.tag m ++ s ++ MarkSpec.tag m)).
  { rewrite <- applyMark_wrap, applyMark_tag.
    destruct (MarkSpec.recognised m) eqn:E; [reflexivity|].
    rewrite (tag_unrecognised m E). simpl. now rewrite append_empty_r. }
  now injection H.
Qed.

Lemma cat_app (a b : list string) :
  SlugSpec.cat (a ++ b)%list = SlugSpec.cat a ++ SlugSpec.cat b.
Proof.
  induction a as [|x a IH]; simpl; [reflexivity|].
  now rewrite IH, append_assoc.
Qed.

Lemma wrapAll_tags (marks : list Node.mark) (s : string) :
  TextSpec.wrapAll marks s
  = MarkSpec.opening marks ++ s ++ MarkSpec.closing marks.
Proof.
  unfold MarkSpec.opening, MarkSpec.closing.
  revert s. induction marks as [|m marks IH]; intros s.
  - simpl. now rewrite append_empty_r.
  - cbn [TextSpec.wrapAll rev map]. rewrite IH, wrap_tag.
    rewrite map_app, cat_app. cbn [map SlugSpec.cat fold_right].
    now string_norm.
Qed.

(** X6.  The rendering of a text node is its value between two strings
    that depend on the marks only: in front the tags of the marks, last
    mark first, behind them the tags, first mark first.  The value itself
    is never changed or escaped. *)
Theorem text_is_value_between_tags :
  forall (data : snapshot) content dat (value : string) marks,
    processNode data (Some (textNode content dat value marks))
    = Ok (JString (MarkSpec.opening (TextSpec.listed marks)
                   ++ value
                   ++ MarkSpec.closing (TextSpec.listed marks))).
Proof.
  intros data content dat value marks.
  unfold processNode. rewrite processObject_text by reflexivity.
  unfold processText. cbn [textNode Node.value Node.marks of_option].
  destruct marks as [l|]; cbn [TextSpec.listed].
  - now rewrite fold_applyMark, wrapAll_tags.
  - unfold MarkSpec.opening, MarkSpec.closing. simpl.
    now rewrite append_empty_r.
Qed.

Lemma fold_applyMark_undefined (marks : list Node.mark) :
  fold_left (fun text mark => applyMark mark text) marks JUndefined
  = if existsb MarkSpec.recognised marks
    then JString (TextSpec.wrapAll marks "undefined")
    else JUndefined.
Proof.
  induction marks as [|m marks IH]; [reflexivity|].
  cbn [fold_left existsb TextSpec.wrapAll]. rewrite applyMark_tag.
  destruct (MarkSpec.recognised m) eqn:E; cbn [orb].
  - rewrite fold_applyMark, wrap_tag. reflexivity.
  - rewrite IH, wrap_tag, (tag_unrecognised m E). reflexivity.
Qed.

(** X7.  A text node without [value] renders as [undefined] when none of
    its marks is [bold] or [code]; then it adds nothing to a paragraph, and
    prints the word [undefined] as an item of a list.  With a [bold] or
    [code] mark among its marks it renders as the word [undefined] with
    the wraps around it. *)
Theorem text_without_value :
  forall (data : snapshot) (marks : list Node.mark),
    let node := Some (MarkSpec.valueless (Some marks)) in
    (existsb MarkSpec.recognised marks = false ->
     processNode data node = Ok JUndefined
     /\ processNode data (Some (parent (Some "paragraph") [node] None))
        = Ok (JString "")
     /\ processNode data (Some (parent (Some "unordered-list") [node] None))
        = Ok (JString "- undefined"))
    /\ (existsb MarkSpec.recognised marks = true ->
        processNode data node
        = Ok (JString (TextSpec.wrapAll marks "undefined"))).
Proof.
  intros data marks node.
  assert (H : processNode data node
              = Ok (if existsb MarkSpec.recognised marks
                    then JString (TextSpec.wrapAll marks "undefined")
                    else JUndefined)).
  { unfold node, processNode. rewrite processObject_text by reflexivity.
    unfold processText. cbn [MarkSpec.valueless Node.value Node.marks of_option].
    now rewrite fold_applyMark_undefined. }
  split; intros E; rewrite E in H; [|exact H].
  split; [exact H|]. split.
  - unfold processNode at 1. rewrite processObject_eq. cbv zeta.
    unfold parent, mapContent. cbn [Node.nodeType Node.content Arr.mapi].
    change (is_lit (Some "paragraph") "document") with false.
    change (is_lit (Some "paragraph") "paragraph") with true.
    cbv iota. rewrite H. reflexivity.
  - unfold processNode at 1. rewrite processObject_eq. cbv zeta.
    unfold parent, mapContent. cbn [Node.nodeType Node.content Arr.mapi].
    change (is_lit (Some "unordered-list") "document") with false.
    change (is_lit (Some "unordered-list") "paragraph") with false.
    change (is_lit (Some "unordered-list") "heading-2") with false.
    change (is_lit (Some "unordered-list") "heading-3") with false.
    change (is_lit (Some "unordered-list") "unordered-list") with true.
    cbv iota. rewrite H. reflexivity.
Qed.

Lemma text_without_value_witness :
  processNode noData (Some (MarkSpec.valueless (Some [Node.mkMark (Some "italic")])))
  = Ok JUndefined
  /\ processNode noData
       (Some (MarkSpec.valueless (Some [Node.mkMark (Some "italic"); bold])))
     = Ok (JString (TextSpec.wrapAll [Node.mkMark (Some "italic"); bold] "undefined")).
Proof.
  split.
  - apply (proj1 (proj1 (text_without_value noData [Node.mkMark (Some "italic")])
                    eq_refl)).
  - apply (proj2 (text_without_value noData [Node.mkMark (Some "italic"); bold])
             eq_refl).
Defined.

(* ===================================================================== *)
(** ** Further properties: malformed tables *)
(* ===================================================================== *)

Lemma forEach_app {A B : Type} (f : nat -> A -> B -> result B) (a b : list A) :
  forall (i : nat) (st : B),
    Arr.forEach f i (a ++ b)%list st
    = (st' <- Arr.forEach f i a st ;; Arr.forEach f (i + List.length a) b st').
Proof.
  induction a as [|x a IH]; intros i st; simpl.
  - now rewrite Nat.add_0_r.
  - destruct (f i x st) as [st'|]; simpl; [|reflexivity].
    rewrite IH. now rewrite Nat.add_succ_r.
Qed.

Section TableErrors.

Variable data : snapshot.

Lemma processTable_row_throws (table : Node.t) before row after texts (e : error) :
  Node.content table = Some (before ++ row :: after)%list ->
  Forall2 (rendersRow data) before texts ->
  (forall i markdown, processRow (processNode data) i row markdown = Throw e) ->
  processTable data table = Throw e.
Proof.
  intros Hc Hbefore Hrow. unfold processTable, processTable_with. rewrite Hc.
  rewrite forEach_app, (forEach_rows data _ _ Hbefore). cbn [bind Arr.forEach].
  now rewrite Hrow.
Qed.

Lemma processRow_cell_throws (r : Node.t) c1 cell c2 done (e : error) :
  Node.content r = Some (c1 ++ cell :: c2)%list ->
  Forall2 (rendersCell data) c1 done ->
  processCell (processNode data) cell = Throw e ->
  forall i markdown, processRow (processNode data) i (Some r) markdown = Throw e.
Proof.
  intros Hr Hdone Hcell i markdown. unfold processRow. rewrite Hr.
  rewrite (map_throw _ c1 c2 cell e); [reflexivity | | exact Hcell].
  clear Hr. induction Hdone as [|x y l ys Hxy _ IH]; constructor; auto.
  now rewrite (processCell_renders data x y Hxy).
Qed.

End TableErrors.

(** X8.  A table whose earlier rows render throws at the first row or cell
    that is not a node with children: reading [content] of [null] for a
    [null] row or cell, reading [map] of [undefined] for a row or cell
    without [content]; and when a child of a cell throws, the table throws
    the same exception. *)
Theorem malformed_table_throws :
  forall (data : snapshot) (table : Node.t) before row after texts,
    Node.content table = Some (before ++ row :: after)%list ->
    Forall2 (rendersRow data) before texts ->
    (row = None ->
     processTable data table = Throw (TypeError_read JsNull "content"))
    /\ (forall r,
          row = Some r -> Node.content r = None ->
          processTable data table = Throw (TypeError_read JsUndefined "map"))
    /\ (forall r c1 cell c2 done,
          row = Some r ->
          Node.content r = Some (c1 ++ cell :: c2)%list ->
          Forall2 (rendersCell data) c1 done ->
          (cell = None ->
           processTable data table = Throw (TypeError_read JsNull "content"))
          /\ (forall c,
                cell = Some c -> Node.content c = None ->
                processTable data table = Throw (TypeError_read JsUndefined "map"))
          /\ (forall c k1 kid k2 e,
                cell = Some c ->
                Node.content c = Some (k1 ++ kid :: k2)%list ->
                Forall (fun k => succeeds (processNode data k) = true) k1 ->
                processNode data kid = Throw e ->
                processTable data table = Throw e)).
Proof.
  intros data table before row after texts Hc Hbefore.
  split; [|split].
  - intros ->. now apply (processTable_row_throws data table _ _ _ _ _ Hc Hbefore).
  - intros r -> Hr. apply (processTable_row_throws data table _ _ _ _ _ Hc Hbefore).
    intros i markdown. unfold processRow. now rewrite Hr.
  - intros r c1 cell c2 done -> Hr Hdone. split; [|split].
    + intros ->. apply (processTable_row_throws data table _ _ _ _ _ Hc Hbefore).
      now apply (processRow_cell_throws data r c1 None c2 done).
    + intros c -> Hcell.
      apply (processTable_row_throws data table _ _ _ _ _ Hc Hbefore).
      apply (processRow_cell_throws data r c1 (Some c) c2 done _ Hr Hdone).
      unfold processCell. now rewrite Hcell.
    + intros c k1 kid k2 e -> Hcell Hk1 Hkid.
      apply (processTable_row_throws data table _ _ _ _ _ Hc Hbefore).
      apply (processRow_cell_throws data r c1 (Some c) c2 done _ Hr Hdone).
      unfold processCell. rewrite Hcell.
      now rewrite (map_throw _ k1 k2 kid e Hk1 Hkid).
Qed.

Lemma malformed_table_throws_witness :
  processTable noData
    (Node.mk (Some "table")
       (Some [Sample.row ["a"; "b"]; None; Sample.row ["c"; "d"]])
       None None None)
  = Throw (TypeError_read JsNull "content")
  /\ processTable noData
       (Node.mk (Some "table")
          (Some [Sample.row ["a"; "b"];
                 boxOf [Sample.cell "c"; boxOf [Sample.text "d"; Kinds.leaf "paragraph"]]])
          None None None)
     = Throw (TypeError_read JsUndefined "map").
Proof.
  assert (H : Forall2 (rendersRow noData) [Sample.row ["a"; "b"]] [["a"; "b"]])
    by renders_rows.
  split.
  - apply (proj1 (malformed_table_throws noData
                    (Node.mk (Some "table")
                       (Some [Sample.row ["a"; "b"]; None; Sample.row ["c"; "d"]])
                       None None None)
                    [Sample.row ["a"; "b"]] None [Sample.row ["c"; "d"]] _
                    eq_refl H)
             eq_refl).
  - assert (Hcell : Forall2 (rendersCell noData) [Sample.cell "c"] ["c"])
      by renders_cells.
    apply (proj2 (proj2 (proj2 (proj2 (malformed_table_throws noData
                    (Node.mk (Some "table")
                       (Some [Sample.row ["a"; "b"];
                              boxOf [Sample.cell "c";
                                     boxOf [Sample.text "d"; Kinds.leaf "paragraph"]]])
                       None None None)
                    [Sample.row ["a"; "b"]]
                    (boxOf [Sample.cell "c";
                            boxOf [Sample.text "d"; Kinds.leaf "paragraph"]])
                    [] _ eq_refl H))
                  _ [Sample.cell "c"]
                  (boxOf [Sample.text "d"; Kinds.leaf "paragraph"]) [] _
                  eq_refl eq_refl Hcell))
             _ [Sample.text "d"] (Kinds.leaf "paragraph") []
             (TypeError_read JsUndefined "map") eq_refl eq_refl).
    + repeat first [ apply Forall_nil | apply Forall_cons; [reflexivity|] ].
    + reflexivity.
Defined.

(* ===================================================================== *)
(** ** Further properties: embedded assets with parts missing *)
(* ===================================================================== *)

(** X9.  What an embedded-asset block does when a part of it or of its
    asset is missing.  Without [data], [data.target] or [target.sys] it
    throws, reading [target], [sys] or [id] of [undefined].  When the asset
    it resolves to has no [fields], it throws reading [file]; when the
    [file] field has no ['en-US'] value, it throws reading [url]; when the
    file descriptor has no [url], it throws reading [startsWith].  A
    [title] field without ['en-US'] value does not throw: the image tag is
    emitted with the title [undefined]. *)
Theorem asset_block_with_missing_parts :
  forall (data : snapshot) (node : Node.t),
    Node.nodeType node = Some "embedded-asset-block" ->
    (Node.data node = None ->
     processNode data (Some node) = Throw (TypeError_read JsUndefined "target"))
    /\ (forall d,
          Node.data node = Some d -> Node.target d = None ->
          processNode data (Some node) = Throw (TypeError_read JsUndefined "sys"))
    /\ (forall d l,
          Node.data node = Some d -> Node.target d = Some l -> Node.sys l = None ->
          processNode data (Some node) = Throw (TypeError_read JsUndefined "id"))
    /\ (forall d l s asset,
          Node.data node = Some d -> Node.target d = Some l -> Node.sys l = Some s ->
          assetResolves data (Sys.id s) asset ->
          (Asset.fields asset = None ->
           processNode data (Some node) = Throw (TypeError_read JsUndefined "file"))
          /\ (forall fs f,
                Asset.fields asset = Some fs -> Asset.file fs = Some f ->
                (Localized.en_US f = None ->
                 processNode data (Some node)
                 = Throw (TypeError_read JsUndefined "url"))
                /\ (forall fd,
                      Localized.en_US f = Some fd -> Asset.url fd = None ->
                      processNode data (Some node)
                      = Throw (TypeError_read JsUndefined "startsWith"))
                /\ (forall fd url,
                      Localized.en_US f = Some fd -> Asset.url fd = Some url ->
                      Asset.title fs = Some (Localized.mk None) ->
                      processNode data (Some node)
                      = Ok (JString (AssetSpec.image "undefined" url))))).
Proof.
  intros data node Hty. unfold processNode.
  rewrite (processObject_asset data node Hty). unfold processAsset.
  split; [|split; [|split]].
  - intros ->. reflexivity.
  - intros d -> ->. reflexivity.
  - intros d l -> -> ->. reflexivity.
  - intros d l s asset -> -> -> Hres. rewrite (findAsset_resolves data _ _ Hres).
    cbn [bind]. split.
    + intros ->. reflexivity.
    + intros fs f -> ->. split; [|split].
      * intros ->. reflexivity.
      * intros fd -> ->. reflexivity.
      * intros fd url -> -> ->. cbn [fieldOr Localized.en_US of_option toString].
        rewrite startsWith_slashes. reflexivity.
Qed.

Lemma asset_block_with_missing_parts_witness :
  processNode noData (Kinds.leaf "embedded-asset-block")
  = Throw (TypeError_read JsUndefined "target")
  /\ processNode
       (mkSnapshot [] [Asset.mk (Some (Sys.mk (Some "a9"))) None])
       (Some (assetBlock None None (Some "a9") None None))
     = Throw (TypeError_read JsUndefined "file")
  /\ processNode
       (mkSnapshot []
          [Sample.asset "a9" (Sample.fileAt "/logo.png") (Some (Localized.mk None))])
       (Some (assetBlock None None (Some "a9") None None))
     = Ok (JString (AssetSpec.image "undefined" "/logo.png")).
Proof.
  split; [|split].
  - apply (proj1 (asset_block_with_missing_parts noData
                    (Node.mk (Some "embedded-asset-block") None None None None)
                    eq_refl)).
    reflexivity.
  - apply (proj1 (proj2 (proj2 (proj2 (asset_block_with_missing_parts
                    (mkSnapshot [] [Asset.mk (Some (Sys.mk (Some "a9"))) None])
                    (assetBlock None None (Some "a9") None None) eq_refl)))
                    _ _ (Sys.mk (Some "a9"))
                    (Asset.mk (Some (Sys.mk (Some "a9"))) None)
                    eq_refl eq_refl eq_refl
                    (ex_intro _ [] (ex_intro _ []
                       (conj eq_refl (conj (Forall_nil _)
                          (ex_intro _ (Sys.mk (Some "a9")) (conj eq_refl eq_refl)))))))).
    reflexivity.
  - apply (proj2 (proj2 (proj2 (proj2 (proj2 (proj2 (asset_block_with_missing_parts
                    (mkSnapshot []
                       [Sample.asset "a9" (Sample.fileAt "/logo.png")
                          (Some (Localized.mk None))])
                    (assetBlock None None (Some "a9") None None) eq_refl)))
                    _ _ (Sys.mk (Some "a9"))
                    (Sample.asset "a9" (Sample.fileAt "/logo.png")
                       (Some (Localized.mk None)))
                    eq_refl eq_refl eq_refl
                    (ex_intro _ [] (ex_intro _ []
                       (conj eq_refl (conj (Forall_nil _)
                          (ex_intro _ (Sys.mk (Some "a9")) (conj eq_refl eq_refl)))))))
                  _ _ eq_refl eq_refl))
             _ "/logo.png" eq_refl eq_refl eq_refl).
Defined.

(* ===================================================================== *)
(** ** Further properties: the blocks of a page *)
(* ===================================================================== *)

Section BlockProofs.

Variable data : snapshot.

Lemma forEach_refs_bodies (refs : list Entry.ref) (bodies : list string) :
  Forall2 (fun r b => processRef data r "" = Ok b) refs bodies ->
  forall (i : nat) (markdown : string),
    Arr.forEach (fun _ => processRef data) i refs markdown
    = Ok (markdown ++ SlugSpec.cat bodies).
Proof.
  induction 1 as [|r b refs bodies Hr _ IH]; intros i markdown; simpl.
  - now rewrite append_empty_r.
  - rewrite processRef_append, Hr. cbn [bind]. rewrite IH.
    now rewrite append_assoc.
Qed.

Lemma forEach_refs_throw (before after : list Entry.ref) (r : Entry.ref)
  (bodies : list string) (e : error) :
  Forall2 (fun r b => processRef data r "" = Ok b) before bodies ->
  processRef data r "" = Throw e ->
  forall (i : nat) (markdown : string),
    Arr.forEach (fun _ => processRef data) i (before ++ r :: after)%list markdown
    = Throw e.
Proof.
  intros Hbefore Hr i markdown.
  rewrite forEach_app, (forEach_refs_bodies _ _ Hbefore). cbn [bind Arr.forEach].
  now rewrite processRef_append, Hr.
Qed.

End BlockProofs.

(** X10.  The blocks of a page are appended in the order of its
    references, each reference adding what it would add on its own: when
    every reference yields a text, the page text grows by these texts one
    after the other.  When a reference throws and those before it do not,
    the blocks as a whole throw the same exception. *)
Theorem blocks_are_appended_in_order :
  forall (data : snapshot) (f : Entry.fields_t) (refs : list Entry.ref)
         (markdown : string),
    Entry.content f = Some (Localized.mk (Some (Entry.Refs refs))) ->
    (forall bodies,
        Forall2 (fun r b => processRef data r "" = Ok b) refs bodies ->
        pageBlocks data f markdown = Ok (markdown ++ SlugSpec.cat bodies))
    /\ (forall before r after bodies e,
          refs = (before ++ r :: after)%list ->
          Forall2 (fun r b => processRef data r "" = Ok b) before bodies ->
          processRef data r "" = Throw e ->
          pageBlocks data f markdown = Throw e).
Proof.
  intros data f refs markdown Hc. unfold pageBlocks. rewrite Hc.
  cbn [Localized.en_US]. split.
  - intros bodies H. now apply forEach_refs_bodies.
  - intros before r after bodies e -> Hb Hr. now apply (forEach_refs_throw data _ _ _ bodies).
Qed.

Lemma blocks_are_appended_in_order_witness :
  pageBlocks Sample.export
    (Sample.pageFields None None [Sample.refTo "gone"; Sample.refTo "b1"]) "# T"
  = Ok ("# T" ++ SlugSpec.cat [""; Sample.introBlocks])
  /\ pageBlocks Sample.export
       (Sample.pageFields None None [Sample.refTo "b1"; Entry.mkRef None]) "# T"
     = Throw (TypeError_read JsUndefined "id").
Proof.
  split.
  - apply (proj1 (blocks_are_appended_in_order Sample.export
                    (Sample.pageFields None None [Sample.refTo "gone"; Sample.refTo "b1"])
                    _ "# T" eq_refl)).
    repeat first [ apply Forall2_nil | apply Forall2_cons; [reflexivity|] ].
  - apply (proj2 (blocks_are_appended_in_order Sample.export
                    (Sample.pageFields None None [Sample.refTo "b1"; Entry.mkRef None])
                    _ "# T" eq_refl)
             [Sample.refTo "b1"] (Entry.mkRef None) [] [Sample.introBlocks]
             (TypeError_read JsUndefined "id") eq_refl).
    + repeat first [ apply Forall2_nil | apply Forall2_cons; [reflexivity|] ].
    + reflexivity.
Defined.

(* ===================================================================== *)
(** ** Further properties: when a page is assembled *)
(* ===================================================================== *)

Lemma pageBlocks_throws (data : snapshot) (f : Entry.fields_t) (markdown : string)
  (e : error) :
  pageBlocks data f "" = Throw e -> pageBlocks data f markdown = Throw e.
Proof. intros H. now rewrite pageBlocks_append, H. Qed.

(** X11.  A page is assembled exactly when it has a [fields] object, its
    title is a string (the field absent, or with an ['en-US'] value) and
    its blocks render; the document then has the title, the file name
    derived from it, and the text made of front matter, heading,
    description paragraph and blocks, in this order. *)
Theorem page_is_assembled_iff :
  forall (data : snapshot) (page : Entry.t) (doc : document),
    assemblePage data page = Ok doc
    <-> exists f title body,
        Entry.fields page = Some f
        /\ fieldOr (Entry.title f) "Untitled" = JString title
        /\ pageBlocks data f "" = Ok body
        /\ doc
           = mkDocument (JString title) (SlugSpec.filename title)
               (PageSpec.frontMatter title
                  (PageSpec.printed (fieldOr (Entry.description f) ""))
                ++ PageSpec.heading title
                ++ PageSpec.paragraph
                     (PageSpec.printed (fieldOr (Entry.description f) ""))
                ++ body).
Proof.
  intros data page doc. split.
  - unfold assemblePage. destruct (Entry.fields page) as [f|]; [|discriminate].
    rewrite pageBlocks_append.
    destruct (pageBlocks data f "") as [body|] eqn:Hb; [|discriminate].
    cbn [bind].
    destruct (fieldOr (Entry.title f) "Untitled") as [|title] eqn:Ht;
      [discriminate|].
    rewrite makeFilename_spec. cbn [bind]. intros H. injection H as <-.
    exists f, title, body.
    split; [reflexivity|]. split; [exact Ht|]. split; [exact Hb|].
    rewrite pageHeader_spec. now rewrite !append_assoc.
  - intros (f & title & body & Hf & Ht & Hb & ->).
    rewrite (assemblePage_ok data page f title body Hf Ht Hb).
    rewrite pageHeader_spec. now rewrite !append_assoc.
Qed.

Lemma page_is_assembled_iff_witness :
  assemblePage Sample.export Sample.intro
  = Ok (mkDocument (JString "Intro") (SlugSpec.filename "Intro")
          (PageSpec.frontMatter "Intro" (Some "Welcome")
           ++ PageSpec.heading "Intro"
           ++ PageSpec.paragraph (Some "Welcome")
           ++ Sample.introBlocks)).
Proof.
  apply (proj2 (page_is_assembled_iff Sample.export Sample.intro _)).
  exists (Sample.pageFields (localized "Intro") (localized "Welcome")
            [Sample.refTo "b1"]),
         "Intro", Sample.introBlocks.
  repeat split; reflexivity.
Defined.

(** X12.  The ways in which the assembly of a page fails.  A page without
    [fields] throws reading [title].  A page whose [content] value is not
    an array throws that [contentRefs.forEach] is not a function.  A
    reference without [sys] throws reading [id], once the references
    before it are done.  A page whose title field has no ['en-US'] value
    is never assembled: it throws what its blocks throw, and reading
    [toLowerCase] of [undefined] when its blocks render. *)
Theorem page_assembly_failures :
  forall (data : snapshot) (page : Entry.t),
    (Entry.fields page = None ->
     assemblePage data page = Throw (TypeError_read JsUndefined "title"))
    /\ (forall f,
          Entry.fields page = Some f ->
          (forall doc,
              Entry.content f = Some (Localized.mk (Some (Entry.RichText doc))) ->
              assemblePage data page = Throw (TypeError_call "contentRefs.forEach"))
          /\ (forall before r after bodies,
                Entry.content f
                = Some (Localized.mk (Some (Entry.Refs (before ++ r :: after)%list))) ->
                Forall2 (fun r b => processRef data r "" = Ok b) before bodies ->
                Entry.ref_sys r = None ->
                assemblePage data page = Throw (TypeError_read JsUndefined "id"))
          /\ (Entry.title f = Some (Localized.mk None) ->
              assemblePage data page
              = match pageBlocks data f "" with
                | Ok _ => Throw (TypeError_read JsUndefined "toLowerCase")
                | Throw e => Throw e
                end)).
Proof.
  intros data page. split.
  - intros H. unfold assemblePage. now rewrite H.
  - intros f Hf. unfold assemblePage. rewrite Hf. split; [|split].
    + intros doc Hc. unfold pageBlocks. now rewrite Hc.
    + intros before r after bodies Hc Hb Hr.
      rewrite (pageBlocks_throws data f _ (TypeError_read JsUndefined "id"));
        [reflexivity|].
      unfold pageBlocks. rewrite Hc. cbn [Localized.en_US].
      apply (forEach_refs_throw data before after r bodies); [exact Hb|].
      unfold processRef. now rewrite Hr.
    + intros Ht. rewrite Ht. cbn [fieldOr Localized.en_US of_option].
      rewrite pageBlocks_append.
      destruct (pageBlocks data f ""); reflexivity.
Qed.

Lemma page_assembly_failures_witness :
  assemblePage Sample.export Sample.broken
  = Throw (TypeError_read JsUndefined "title")
  /\ assemblePage Sample.export
       (Sample.page "p9" (Some (Localized.mk None)) None [Sample.refTo "b1"])
     = Throw (TypeError_read JsUndefined "toLowerCase")
  /\ assemblePage Sample.export
       (Sample.page "p9" (localized "T") None [Sample.refTo "b1"; Entry.mkRef None])
     = Throw (TypeError_read JsUndefined "id").
Proof.
  split; [|split].
  - apply (proj1 (page_assembly_failures Sample.export Sample.broken)).
    reflexivity.
  - apply (proj2 (proj2 (proj2 (page_assembly_failures Sample.export
               (Sample.page "p9" (Some (Localized.mk None)) None [Sample.refTo "b1"]))
             _ eq_refl)) eq_refl).
  - apply (proj1 (proj2 (proj2 (page_assembly_failures Sample.export
               (Sample.page "p9" (localized "T") None
                  [Sample.refTo "b1"; Entry.mkRef None]))
             _ eq_refl))
             [Sample.refTo "b1"] (Entry.mkRef None) [] [Sample.introBlocks] eq_refl).
    + repeat first [ apply Forall2_nil | apply Forall2_cons; [reflexivity|] ].
    + reflexivity.
Defined.

(* ===================================================================== *)
(** ** Further properties: the shape of a file name *)
(* ===================================================================== *)

Section NameProofs.

Import NameSpec.

Lemma hyphen_is_safe (c : ascii) : Str.isHyphen c = true -> safeChar c = true.
Proof. unfold safeChar. intros ->. apply Bool.orb_true_r. Qed.

Lemma replaceRuns_safe (s : string) :
  allChars safeChar (Str.replaceRuns s) = true
  /\ allChars safeChar (Str.skipRun s) = true.
Proof.
  induction s as [|c r [IHr IHs]]; [split; reflexivity|].
  cbn [Str.replaceRuns Str.skipRun]. destruct (Str.isAlnum c) eqn:Hc.
  - assert (H : allChars safeChar (String c (Str.replaceRuns r)) = true)
      by (cbn [allChars]; unfold safeChar at 1; now rewrite Hc, IHr).
    now split.
  - split; [|exact IHs]. cbn [allChars]. now rewrite IHs.
Qed.

Lemma dropFinalHyphen_head (c : ascii) (r : string) :
  Str.dropFinalHyphen (String c r) = ""
  \/ exists t, Str.dropFinalHyphen (String c r) = String c t.
Proof.
  destruct r as [|d t].
  - simpl. destruct (Str.isHyphen c); eauto.
  - right. eexists. reflexivity.
Qed.

Lemma dropFinalHyphen_empty (c : ascii) (r : string) :
  Str.dropFinalHyphen (String c r) = "" -> Str.isHyphen c = true /\ r = "".
Proof.
  destruct r as [|d t]; simpl.
  - destruct (Str.isHyphen c); [auto | discriminate].
  - discriminate.
Qed.

Lemma dropFinalHyphen_safe (p : ascii -> bool) (s : string) :
  allChars p s = true -> allChars p (Str.dropFinalHyphen s) = true.
Proof.
  induction s as [|c r IH]; [reflexivity|]. intros H.
  cbn [allChars] in H. apply andb_prop in H. destruct H as [Hc Hr].
  destruct r as [|d t].
  - simpl. destruct (Str.isHyphen c); [reflexivity|]. simpl. now rewrite Hc.
  - change (Str.dropFinalHyphen (String c (String d t)))
      with (String c (Str.dropFinalHyphen (String d t))).
    cbn [allChars]. now rewrite Hc, (IH Hr).
Qed.

Lemma dropFinalHyphen_separated (s : string) :
  separated s -> separated (Str.dropFinalHyphen s).
Proof.
  induction s as [|c r IH]; [exact (fun H => H)|]. intros H.
  destruct r as [|d t].
  - simpl. destruct (Str.isHyphen c); exact I.
  - change (Str.dropFinalHyphen (String c (String d t)))
      with (String c (Str.dropFinalHyphen (String d t))).
    destruct H as [Hcd Hr]. specialize (IH Hr).
    destruct (dropFinalHyphen_head d t) as [E | [u E]]; rewrite E in *.
    + exact I.
    + split; [exact Hcd | exact IH].
Qed.

Lemma dropFinalHyphen_end (s : string) :
  separated s -> endsWithHyphen (Str.dropFinalHyphen s) = false.
Proof.
  induction s as [|c r IH]; [reflexivity|]. intros H.
  destruct r as [|d t].
  - simpl. destruct (Str.isHyphen c) eqn:Hc; [reflexivity|]. simpl. exact Hc.
  - change (Str.dropFinalHyphen (String c (String d t)))
      with (String c (Str.dropFinalHyphen (String d t))).
    destruct H as [Hcd Hr]. specialize (IH Hr).
    destruct (Str.dropFinalHyphen (String d t)) as [|x u] eqn:E.
    + apply dropFinalHyphen_empty in E. destruct E as [Hd _].
      rewrite Hd, Bool.andb_true_r in Hcd. simpl. exact Hcd.
    + exact IH.
Qed.

Lemma dropFinalHyphen_start (s : string) :
  startsWithHyphen s = false -> startsWithHyphen (Str.dropFinalHyphen s) = false.
Proof.
  destruct s as [|c r]; [reflexivity|]. intros H.
  destruct (dropFinalHyphen_head c r) as [E | [u E]]; rewrite E;
    [reflexivity | exact H].
Qed.

Lemma separated_next (c : ascii) (r : string) :
  separated (String c r) -> Str.isHyphen c = true -> startsWithHyphen r = false.
Proof.
  destruct r as [|d t]; [reflexivity|]. intros [Hcd _] Hc.
  rewrite Hc in Hcd. exact Hcd.
Qed.

Lemma stripEdgeHyphens_wellFormed (s : string) :
  allChars safeChar s = true -> separated s ->
  wellFormed (Str.stripEdgeHyphens s).
Proof.
  intros Hsafe Hsep. destruct s as [|c r]; [repeat split|].
  unfold Str.stripEdgeHyphens. destruct (Str.isHyphen c) eqn:Hc.
  - pose proof (separated_next c r Hsep Hc) as Hstart.
    apply separated_tail in Hsep.
    cbn [allChars] in Hsafe. apply andb_prop in Hsafe. destruct Hsafe as [_ Hr].
    repeat split.
    + now apply dropFinalHyphen_safe.
    + now apply dropFinalHyphen_start.
    + now apply dropFinalHyphen_end.
    + now apply dropFinalHyphen_separated.
  - repeat split.
    + now apply dropFinalHyphen_safe.
    + now apply dropFinalHyphen_start.
    + now apply dropFinalHyphen_end.
    + now apply dropFinalHyphen_separated.
Qed.

Lemma base_wellFormed (title : string) : wellFormed (base title).
Proof.
  apply stripEdgeHyphens_wellFormed;
    [apply replaceRuns_safe | apply replaceRuns_separated].
Qed.

Lemma safe_lower (c : ascii) : safeChar c = true -> Str.lowerChar c = c.
Proof. destruct c as [[] [] [] [] [] [] [] []]; cbv; congruence. Qed.

Lemma lowerChar_idempotent (c : ascii) :
  Str.lowerChar (Str.lowerChar c) = Str.lowerChar c.
Proof. destruct c as [[] [] [] [] [] [] [] []]; reflexivity. Qed.

Lemma toLowerCase_idempotent (s : string) :
  Str.toLowerCase (Str.toLowerCase s) = Str.toLowerCase s.
Proof.
  induction s as [|c r IH]; simpl; [reflexivity|].
  now rewrite lowerChar_idempotent, IH.
Qed.

Lemma toLowerCase_safe (s : string) :
  allChars safeChar s = true -> Str.toLowerCase s = s.
Proof.
  induction s as [|c r IH]; simpl; [reflexivity|]. intros H.
  apply andb_prop in H. destruct H as [Hc Hr].
  now rewrite (safe_lower c Hc), (IH Hr).
Qed.

Lemma hyphen_char (c : ascii) : Str.isHyphen c = true -> c = "-"%char.
Proof. destruct c as [[] [] [] [] [] [] [] []]; cbv; congruence. Qed.

Lemma replaceRuns_fixed (s : string) :
  allChars safeChar s = true -> separated s ->
  Str.replaceRuns s = s
  /\ (startsWithHyphen s = false -> Str.skipRun s = s).
Proof.
  induction s as [|c r IH]; [split; reflexivity|]. intros Hsafe Hsep.
  cbn [allChars] in Hsafe. apply andb_prop in Hsafe. destruct Hsafe as [Hc Hr].
  destruct (IH Hr (separated_tail c r Hsep)) as [IHr IHs].
  cbn [Str.replaceRuns Str.skipRun]. destruct (Str.isAlnum c) eqn:Ha.
  - rewrite IHr. split; reflexivity.
  - unfold safeChar in Hc. rewrite Ha in Hc. simpl in Hc. split.
    + rewrite (IHs (separated_next c r Hsep Hc)).
      now rewrite (hyphen_char c Hc).
    + simpl. intros H. congruence.
Qed.

Lemma dropFinalHyphen_fixed (s : string) :
  endsWithHyphen s = false -> Str.dropFinalHyphen s = s.
Proof.
  induction s as [|c r IH]; [reflexivity|]. intros H.
  destruct r as [|d t].
  - simpl in *. now rewrite H.
  - change (Str.dropFinalHyphen (String c (String d t)))
      with (String c (Str.dropFinalHyphen (String d t))).
    now rewrite (IH H).
Qed.

Lemma base_fixed (b : string) : wellFormed b -> base b = b.
Proof.
  intros (Hsafe & Hstart & Hend & Hsep). unfold base.
  rewrite (toLowerCase_safe b Hsafe).
  rewrite (proj1 (replaceRuns_fixed b Hsafe Hsep)).
  destruct b as [|c r]; [reflexivity|].
  unfold Str.stripEdgeHyphens. simpl in Hstart. rewrite Hstart.
  now apply dropFinalHyphen_fixed.
Qed.

End NameProofs.

(** X13.  Every file name the converter makes is [.mdx] behind a base of
    lower-case letters, digits and hyphens only, with no hyphen at its
    start or end and no two hyphens in a row: no slash, no dot and no
    space gets into a file name, whatever the title. *)
Theorem filename_is_well_formed :
  forall title : string,
    makeFilename (JString title) = Ok (NameSpec.base title ++ ".mdx")
    /\ NameSpec.allChars NameSpec.safeChar (NameSpec.base title) = true
    /\ startsWithHyphen (NameSpec.base title) = false
    /\ NameSpec.endsWithHyphen (NameSpec.base title) = false
    /\ separated (NameSpec.base title).
Proof.
  intros title. split; [reflexivity|]. exact (base_wellFormed title).
Qed.

(** X14.  Naming is idempotent and blind to case: the base of a file name,
    taken as a title, gives the same file name again, and a title gives
    the same file name as its lower-case form.  Titles that differ in case
    or in their symbols only are written to one and the same file. *)
Theorem filename_idempotent_and_caseless :
  forall title : string,
    makeFilename (JString (NameSpec.base title)) = makeFilename (JString title)
    /\ makeFilename (JString (Str.toLowerCase title)) = makeFilename (JString title).
Proof.
  intros title. split.
  - change (makeFilename (JString (NameSpec.base title)))
      with (Ok (NameSpec.base (NameSpec.base title) ++ ".mdx")).
    now rewrite (base_fixed _ (base_wellFormed title)).
  - unfold makeFilename. now rewrite toLowerCase_idempotent.
Qed.

(* ===================================================================== *)
(** ** Further properties: what a run writes and reports *)
(* ===================================================================== *)

Lemma assemblePage_named (data : snapshot) (page : Entry.t) (doc : document) :
  assemblePage data page = Ok doc ->
  exists title,
    doc_title doc = JString title
    /\ filename doc = NameSpec.base title ++ ".mdx".
Proof.
  unfold assemblePage. destruct (Entry.fields page) as [f|]; [|discriminate].
  destruct (pageBlocks data f _) as [md|]; [|discriminate]. cbn [bind].
  destruct (fieldOr (Entry.title f) "Untitled") as [|title]; [discriminate|].
  cbn [makeFilename bind]. intros H. injection H as <-.
  exists title. split; reflexivity.
Qed.

(** X15.  Every write of a run that returned comes from an entry of the
    snapshot whose content type is [page] and whose assembly succeeds, on
    whatever file system the run is started: its text is the document of
    that page, and its path is the output directory, a slash, the base
    derived from the page title and [.mdx].  Nothing is written for an
    entry of another content type, and nothing outside the output
    directory. *)
Theorem written_files_come_from_pages :
  forall (data : snapshot) (FS : Type)
         (writeFileSync : FS -> string -> string -> FS * option error)
         (disk0 : FS) (path text : string),
    In (path, text) (written (main data writeFileSync disk0)) ->
    exists page doc title,
      In page (entries data)
      /\ Entry.contentType page = Some "page"
      /\ assemblePage data page = Ok doc
      /\ doc_title doc = JString title
      /\ text = markdown doc
      /\ path = "markdown-output/" ++ NameSpec.base title ++ ".mdx".
Proof.
  intros data FS writeFileSync disk0 path text Hin.
  rewrite main_run in Hin. cbn [written] in Hin.
  apply runFrom_files in Hin. destruct Hin as (page & doc & Hpage & Hdoc & Hfile).
  unfold pages in Hpage. apply filter_In in Hpage. destruct Hpage as [Hentry Hty].
  apply is_lit_true in Hty.
  injection Hfile as -> ->.
  destruct (assemblePage_named data page doc Hdoc) as (title & Ht & Hname).
  exists page, doc, title. repeat split; auto.
  unfold filepath. rewrite Hname. reflexivity.
Qed.

Lemma written_files_come_from_pages_witness :
  In ("markdown-output/intro.mdx", Sample.introMarkdown)
     (written (main Sample.export Sample.writeFileSync []))
  /\ exists page doc title,
      In page (entries Sample.export)
      /\ Entry.contentType page = Some "page"
      /\ assemblePage Sample.export page = Ok doc
      /\ doc_title doc = JString title
      /\ Sample.introMarkdown = markdown doc
      /\ "markdown-output/intro.mdx"
         = "markdown-output/" ++ NameSpec.base title ++ ".mdx".
Proof.
  assert (H : In ("markdown-output/intro.mdx", Sample.introMarkdown)
                 (written (main Sample.export Sample.writeFileSync [])))
    by (left; reflexivity).
  split; [exact H|].
  exact (written_files_come_from_pages Sample.export Sample.files
           Sample.writeFileSync [] _ _ H).
Defined.


(* ===================================================================== *)
(** ** Further properties: children rendered one after the other *)
(* ===================================================================== *)

Section Inline.

Variable data : snapshot.

Lemma mapi_const {A B : Type} (f : A -> result B) (l : list A) :
  forall i, Arr.mapi (fun _ x => f x) i l = Arr.map f l.
Proof.
  induction l as [|x l IH]; intros i; simpl; [reflexivity|].
  now rewrite IH.
Qed.

Lemma map_app_bind {A B : Type} (f : A -> result B) (a b : list A) :
  Arr.map f (a ++ b)%list
  = (pa <- Arr.map f a ;; pb <- Arr.map f b ;; Ok (pa ++ pb)%list).
Proof.
  induction a as [|x a IH]; simpl.
  - destruct (Arr.map f b); reflexivity.
  - destruct (f x); simpl; [|reflexivity]. rewrite IH.
    destruct (Arr.map f a); simpl; [|reflexivity].
    destruct (Arr.map f b); reflexivity.
Qed.

Lemma joinStrings_empty (l : list string) :
  Arr.joinStrings "" l = SlugSpec.cat l.
Proof.
  induction l as [|x l IH]; [reflexivity|].
  destruct l as [|y l]; [simpl; now rewrite append_empty_r|].
  change (Arr.joinStrings "" (x :: y :: l))
    with (x ++ "" ++ Arr.joinStrings "" (y :: l)).
  rewrite IH. reflexivity.
Qed.

Lemma join_empty_app (a b : list jsval) :
  Arr.join "" (a ++ b)%list = Arr.join "" a ++ Arr.join "" b.
Proof.
  unfold Arr.join. now rewrite !joinStrings_empty, map_app, cat_app.
Qed.

Lemma inline_renders (kind : option string) (kids : list (option Node.t))
  (dat : option Node.data_t) :
  KindSpec.inline kind ->
  processNode data (Some (parent kind kids dat))
  = (parts <- Arr.map (processNode data) kids ;; Ok (JString (Arr.join "" parts))).
Proof.
  intros [-> | [-> | Hnone]]; unfold processNode at 1.
  - rewrite processObject_eq. cbv zeta. unfold parent, mapContent.
    cbn [Node.nodeType Node.content].
    change (is_lit (Some "paragraph") "document") with false.
    change (is_lit (Some "paragraph") "paragraph") with true.
    cbv iota. now rewrite mapi_const.
  - rewrite processObject_eq. cbv zeta. unfold parent, mapContent.
    cbn [Node.nodeType Node.content].
    change (is_lit (Some "list-item") "document") with false.
    change (is_lit (Some "list-item") "paragraph") with false.
    change (is_lit (Some "list-item") "heading-2") with false.
    change (is_lit (Some "list-item") "heading-3") with false.
    change (is_lit (Some "list-item") "unordered-list") with false.
    change (is_lit (Some "list-item") "ordered-list") with false.
    change (is_lit (Some "list-item") "list-item") with true.
    cbv iota. now rewrite mapi_const.
  - rewrite processObject_default by exact Hnone. reflexivity.
Qed.

End Inline.

(** X17.  A paragraph, a list item and a node of a kind the [switch] does
    not name render their children one after the other with nothing in
    between: the rendering of two runs of children put together is the
    rendering of the first followed by the rendering of the second, and an
    element that is [null] can be taken out without changing the result. *)
Theorem inline_children_concatenate :
  forall (data : snapshot) (kind : option string) (dat : option Node.data_t)
         (k1 k2 : list (option Node.t)),
    KindSpec.inline kind ->
    (forall s1 s2,
        processNode data (Some (parent kind k1 dat)) = Ok (JString s1) ->
        processNode data (Some (parent kind k2 dat)) = Ok (JString s2) ->
        processNode data (Some (parent kind (k1 ++ k2) dat)) = Ok (JString (s1 ++ s2)))
    /\ processNode data (Some (parent kind (k1 ++ None :: k2) dat))
       = processNode data (Some (parent kind (k1 ++ k2) dat)).
Proof.
  intros data kind dat k1 k2 Hkind.
  rewrite !(inline_renders data kind _ dat Hkind). split.
  - intros s1 s2. rewrite map_app_bind.
    destruct (Arr.map (processNode data) k1) as [p1|]; [|discriminate].
    destruct (Arr.map (processNode data) k2) as [p2|]; [|discriminate].
    cbn [bind]. intros H1 H2. injection H1 as <-. injection H2 as <-.
    now rewrite join_empty_app.
  - rewrite !map_app_bind.
    destruct (Arr.map (processNode data) k1) as [p1|]; [|reflexivity].
    cbn [bind Arr.map processNode].
    destruct (Arr.map (processNode data) k2) as [p2|]; [|reflexivity].
    cbn [bind]. change (JString "" :: p2) with ([JString ""] ++ p2)%list.
    rewrite !join_empty_app. reflexivity.
Qed.

Lemma inline_children_concatenate_witness :
  processNode noData
    (Some (parent (Some "paragraph") ([Sample.text "Hi "] ++ [Sample.text "there"]) None))
  = Ok (JString ("Hi " ++ "there")).
Proof.
  apply (proj1 (inline_children_concatenate noData (Some "paragraph") None
                  [Sample.text "Hi "] [Sample.text "there"]
                  (or_introl eq_refl))
           "Hi " "there" eq_refl eq_refl).
Defined.
